(** * analyze-trace-dir: batch orchestration of the per-project trace analyzer

    A shallow embedding of [src/analyze-trace-dir.ts]: project discovery
    (manifest or directory scan), the per-project analyzer invocation, the
    classification of each outcome, the ranking and printing of the report
    and the process-wide status code.

    Strings are Rocq [string]s (one character per code unit), JavaScript
    numbers are the IEEE doubles that hold an integer or an infinity, and
    promises are values that are either resolved or rejected. *)

From Stdlib Require Import ZArith NArith List Bool Lia Ascii String.
From Stdlib Require Import Permutation Sorted DecimalString OrderedTypeEx.
Import ListNotations.

Open Scope list_scope.
Open Scope string_scope.

(* ================================================================== *)
(** ** Strings *)

Module Str.

(** JavaScript truthiness of a string: every string but the empty one. *)
Definition truthy (s : string) : bool :=
  match s with
  | EmptyString => false
  | String _ _ => true
  end.

(** Truthiness of an optional string property ([undefined] is falsy). *)
Definition truthy_opt (o : option string) : bool :=
  match o with
  | Some s => truthy s
  | None => false
  end.

Definition chars (s : string) : list ascii := list_ascii_of_string s.
Definition of_chars (l : list ascii) : string := string_of_list_ascii l.

(** [s.startsWith(p)], returning what follows the prefix. *)
Fixpoint strip_prefix (p s : string) : option string :=
  match p with
  | EmptyString => Some s
  | String a p' =>
      match s with
      | EmptyString => None
      | String b s' => if Ascii.eqb a b then strip_prefix p' s' else None
      end
  end.

Definition starts_with (p s : string) : bool :=
  match strip_prefix p s with
  | Some _ => true
  | None => false
  end.

Definition ends_with (suffix s : string) : bool :=
  starts_with (of_chars (rev (chars suffix))) (of_chars (rev (chars s))).

Fixpoint forallb (f : ascii -> bool) (s : string) : bool :=
  match s with
  | EmptyString => true
  | String c r => f c && forallb f r
  end.

(** The longest prefix of characters satisfying [f], and the rest. *)
Fixpoint span (f : ascii -> bool) (s : string) : string * string :=
  match s with
  | EmptyString => (EmptyString, EmptyString)
  | String c r =>
      if f c then let (a, b) := span f r in (String c a, b)
      else (EmptyString, s)
  end.

(** What follows the longest prefix starts with a character outside
    the class, if it starts at all. *)
Definition stops (f : ascii -> bool) (s : string) : Prop :=
  match s with
  | EmptyString => True
  | String c _ => f c = false
  end.

(** [parts.join(sep)]. *)
Fixpoint join (sep : string) (parts : list string) : string :=
  match parts with
  | [] => ""
  | [p] => p
  | p :: rest => p ++ sep ++ join sep rest
  end.

End Str.

(* ================================================================== *)
(** ** JavaScript numbers

    The only numbers the tool computes with are exit codes, scores read
    from a run of decimal digits and differences of scores.  They are
    doubles whose value is an integer, an infinity or NaN. *)

Module JS.

Inductive number : Set :=
| Fin (z : Z)
| PosInf
| NegInf
| NaN.

(** Round a natural number to the nearest number with a 53-bit
    significand, ties to even. *)
Definition round53 (n : N) : N :=
  let bits := N.size n in
  if (bits <=? 53)%N then n
  else
    let e := (bits - 53)%N in
    let q := N.shiftr n e in
    let r := N.land n (N.ones e) in
    let half := N.shiftl 1 (e - 1) in
    let q' := if (half <? r)%N || ((r =? half)%N && N.odd q)
              then (q + 1)%N else q in
    N.shiftl q' e.

(** The Number value of a mathematical integer: the nearest double, an
    infinity once the rounded magnitude reaches [2^1024]. *)
Definition of_Z (z : Z) : number :=
  let m := round53 (Z.abs_N z) in
  if (2 ^ 1024 <=? m)%N
  then (if (z <? 0)%Z then NegInf else PosInf)
  else Fin (Z.sgn z * Z.of_N m).

(** [x - y]. *)
Definition sub (x y : number) : number :=
  match x, y with
  | NaN, _ | _, NaN => NaN
  | Fin a, Fin b => of_Z (a - b)
  | PosInf, PosInf => NaN
  | NegInf, NegInf => NaN
  | PosInf, _ => PosInf
  | NegInf, _ => NegInf
  | Fin _, PosInf => NegInf
  | Fin _, NegInf => PosInf
  end.

(** Truthiness: every number but zero and NaN. *)
Definition truthy (x : number) : bool :=
  match x with
  | Fin z => negb (z =? 0)%Z
  | PosInf | NegInf => true
  | NaN => false
  end.

(** [x || y] on numbers. *)
Definition or (x y : number) : number := if truthy x then x else y.

(** [x > 0], false on NaN. *)
Definition is_pos (x : number) : bool :=
  match x with
  | Fin z => (0 <? z)%Z
  | PosInf => true
  | NegInf | NaN => false
  end.

(** [x < y], false when either side is NaN. *)
Definition ltb (x y : number) : bool :=
  match x, y with
  | NaN, _ | _, NaN => false
  | Fin a, Fin b => (a <? b)%Z
  | NegInf, NegInf => false
  | NegInf, _ => true
  | _, NegInf => false
  | PosInf, _ => false
  | Fin _, PosInf => true
  end.

Definition is_digit (c : ascii) : bool :=
  let n := nat_of_ascii c in (48 <=? n)%nat && (n <=? 57)%nat.

Definition digit_value (c : ascii) : N := N.of_nat (nat_of_ascii c - 48).

(** The mathematical value of a run of decimal digits. *)
Fixpoint decimal_value_from (acc : N) (s : string) : N :=
  match s with
  | EmptyString => acc
  | String c r => decimal_value_from (10 * acc + digit_value c) r
  end.

Definition decimal_value (s : string) : N := decimal_value_from 0 s.

(** Unary [+] applied to a non-empty run of decimal digits. *)
Definition to_number (digits : string) : number :=
  of_Z (Z.of_N (decimal_value digits)).

(** The values a score can take: a non-negative integer or the
    positive infinity. *)
Definition is_score (x : number) : Prop :=
  match x with
  | Fin z => (0 <= z)%Z
  | PosInf => True
  | NegInf | NaN => False
  end.

End JS.

(* ================================================================== *)
(** ** Node's [path] module (POSIX flavour)

    [path.basename], [path.resolve] and [path.join] belong to the
    platform, not to the repository.  They are written here after Node's
    implementation, at the level of the segments between separators. *)

Module Path.

Definition is_sep (c : ascii) : bool := Ascii.eqb c "/".

(** [s.split("/")]: the segments between separators, at least one. *)
Fixpoint split (s : string) : list string :=
  match s with
  | EmptyString => [EmptyString]
  | String c r =>
      if is_sep c then EmptyString :: split r
      else match split r with
           | seg :: rest => String c seg :: rest
           | [] => [String c EmptyString]
           end
  end.

Fixpoint drop_while (f : ascii -> bool) (l : list ascii) : list ascii :=
  match l with
  | [] => []
  | c :: r => if f c then drop_while f r else l
  end.

Fixpoint take_while (f : ascii -> bool) (l : list ascii) : list ascii :=
  match l with
  | [] => []
  | c :: r => if f c then c :: take_while f r else []
  end.

(** [path.basename(p)]: scanning from the end, skip the trailing
    separators, then keep the characters up to the previous separator. *)
Definition basename (p : string) : string :=
  Str.of_chars
    (rev (take_while (fun c => negb (is_sep c))
            (drop_while is_sep (rev (Str.chars p))))).

(** One step of [normalizeString]: [res] holds the segments kept so
    far, innermost first. *)
Definition normalize_step (allowAboveRoot : bool)
           (res : list string) (seg : string) : list string :=
  if (seg =? "")%string || (seg =? ".")%string then res
  else if (seg =? "..")%string then
    match res with
    | top :: res' =>
        if (top =? "..")%string
        then (if allowAboveRoot then ".." :: res else res)
        else res'
    | [] => if allowAboveRoot then [".."] else []
    end
  else seg :: res.

Definition normalize_segments (allowAboveRoot : bool)
           (segs : list string) : list string :=
  rev (fold_left (normalize_step allowAboveRoot) segs []).

(** [normalizeString(path, allowAboveRoot, "/", isPosixPathSeparator)]. *)
Definition normalizeString (path : string) (allowAboveRoot : bool) : string :=
  Str.join "/" (normalize_segments allowAboveRoot (split path)).

Definition is_absolute (p : string) : bool :=
  match p with
  | String c _ => is_sep c
  | EmptyString => false
  end.

(** The loop of [path.resolve]: the arguments are visited from the last
    one backwards, then the working directory, until the path built so
    far is absolute. *)
Fixpoint resolve_loop (right_to_left : list string) (resolvedPath : string)
  : string * bool :=
  match right_to_left with
  | [] => (resolvedPath, false)
  | p :: rest =>
      if (p =? "")%string then resolve_loop rest resolvedPath
      else
        let resolvedPath' := p ++ "/" ++ resolvedPath in
        if is_absolute p then (resolvedPath', true)
        else resolve_loop rest resolvedPath'
  end.

(** [path.resolve(...args)], with [cwd] the value of [process.cwd()]. *)
Definition resolve (cwd : string) (args : list string) : string :=
  let (resolvedPath, resolvedAbsolute) :=
    resolve_loop (rev args ++ [cwd])%list "" in
  let normalized := normalizeString resolvedPath (negb resolvedAbsolute) in
  if resolvedAbsolute then "/" ++ normalized
  else if (normalized =? "")%string then "." else normalized.

Definition last_is_sep (p : string) : bool :=
  match rev (Str.chars p) with
  | c :: _ => is_sep c
  | [] => false
  end.

(** [path.normalize(p)]. *)
Definition normalize (p : string) : string :=
  if (p =? "")%string then "."
  else
    let isAbsolute := is_absolute p in
    let trailingSeparator := last_is_sep p in
    let n := normalizeString p (negb isAbsolute) in
    if (n =? "")%string then
      (if isAbsolute then "/" else if trailingSeparator then "./" else ".")
    else
      let n' := if trailingSeparator then n ++ "/" else n in
      if isAbsolute then "/" ++ n' else n'.

(** [path.join(...args)]: the non-empty arguments joined by a separator,
    then normalized. *)
Definition join (args : list string) : string :=
  match filter Str.truthy args with
  | [] => "."
  | parts => normalize (Str.join "/" parts)
  end.

(** A string without a separator, and a list of non-empty segments. *)
Definition no_sep (s : string) : Prop :=
  Str.forallb (fun c => negb (is_sep c)) s = true.

Definition nonempty_segments (l : list string) : Prop :=
  Forall (fun s => s <> "") l.

(** A path lies inside a directory when it extends the directory's path
    by a separator and at least one more character. *)
Definition inside (dir p : string) : bool :=
  match Str.strip_prefix (if (dir =? "/")%string then "/" else dir ++ "/") p with
  | Some rest => Str.truthy rest
  | None => false
  end.

End Path.

(* ================================================================== *)
(** ** Promises, the console and the host *)

Record Error : Set := { message : string }.

(** The settled state of a promise; also the outcome of a synchronous
    call that may throw inside an [async] function. *)
Inductive Promise (A : Type) : Type :=
| Resolved (a : A)
| Rejected (e : Error).

Arguments Resolved {A} a.
Arguments Rejected {A} e.

Module Promise_.

(** [p.then(f)] for a callback that returns a plain value. *)
Definition then_ {A B : Type} (p : Promise A) (f : A -> B) : Promise B :=
  match p with
  | Resolved a => Resolved (f a)
  | Rejected e => Rejected e
  end.

(** [p.catch(f)] for a callback that returns a plain value. *)
Definition catch_ {A : Type} (p : Promise A) (f : Error -> A) : Promise A :=
  match p with
  | Resolved a => Resolved a
  | Rejected e => Resolved (f e)
  end.

(** [await p] followed by the rest of an [async] function. *)
Definition bind {A B : Type} (p : Promise A) (k : A -> Promise B) : Promise B :=
  match p with
  | Resolved a => k a
  | Rejected e => Rejected e
  end.

(** [Promise.all(ps)]: every value in order, or the first rejection. *)
Fixpoint all {A : Type} (ps : list (Promise A)) : Promise (list A) :=
  match ps with
  | [] => Resolved []
  | Resolved a :: rest =>
      match all rest with
      | Resolved l => Resolved (a :: l)
      | Rejected e => Rejected e
      end
  | Rejected e :: _ => Rejected e
  end.

End Promise_.

(** What has been written with [console.log] and [console.error], one
    entry per call, oldest first. *)
Record Console : Set := {
  logged : list string;
  errors : list string
}.

Definition empty_console : Console := {| logged := []; errors := [] |}.

(** Computations that write to the console and settle like a promise. *)
Definition IO (A : Type) : Type := Console -> Console * Promise A.

Definition ret {A : Type} (a : A) : IO A := fun c => (c, Resolved a).

Definition bind {A B : Type} (m : IO A) (k : A -> IO B) : IO B :=
  fun c =>
    match m c with
    | (c', Resolved a) => k a c'
    | (c', Rejected e) => (c', Rejected e)
    end.

Notation "x <- m ;; k" := (bind m (fun x => k))
  (at level 61, m at next level, right associativity).
Notation "m ;;; k" := (bind m (fun _ => k))
  (at level 61, right associativity).

(** [await p]. *)
Definition await {A : Type} (p : Promise A) : IO A := fun c => (c, p).

Definition console_log (s : string) : IO unit :=
  fun c => ({| logged := (logged c ++ [s])%list; errors := errors c |}, Resolved tt).

Definition console_error (s : string) : IO unit :=
  fun c => ({| logged := logged c; errors := (errors c ++ [s])%list |}, Resolved tt).

(** The console after further calls of [console.log]. *)
Definition wrote (c : Console) (lines : list string) : Console :=
  {| logged := (logged c ++ lines)%list; errors := errors c |}.

(** [try { body } catch (e) { handler }]. *)
Definition try_catch {A : Type} (body : IO A) (handler : Error -> IO A) : IO A :=
  fun c =>
    match body c with
    | (c', Resolved a) => (c', Resolved a)
    | (c', Rejected e) => handler e c'
    end.

Definition when (b : bool) (m : IO unit) : IO unit := if b then m else ret tt.

(** A [for ... of] loop whose body updates a local variable of type [S]. *)
Fixpoint for_of {A S : Type} (l : list A) (body : S -> A -> IO S) (s : S) : IO S :=
  match l with
  | [] => ret s
  | a :: rest => s' <- body s a ;; for_of rest body s'
  end.

(** The termination signals of [NodeJS.Signals]. *)
Inductive Signals : Set :=
| SIGABRT | SIGALRM | SIGBUS | SIGCHLD | SIGCONT | SIGFPE | SIGHUP | SIGILL
| SIGINT | SIGIO | SIGIOT | SIGKILL | SIGPIPE | SIGPOLL | SIGPROF | SIGPWR
| SIGQUIT | SIGSEGV | SIGSTKFLT | SIGSTOP | SIGSYS | SIGTERM | SIGTRAP
| SIGTSTP | SIGTTIN | SIGTTOU | SIGUNUSED | SIGURG | SIGUSR1 | SIGUSR2
| SIGVTALRM | SIGWINCH | SIGXCPU | SIGXFSZ | SIGBREAK | SIGLOST | SIGINFO.

(** The string a signal is in JavaScript. *)
Definition signal_name (s : Signals) : string :=
  match s with
  | SIGABRT => "SIGABRT" | SIGALRM => "SIGALRM" | SIGBUS => "SIGBUS"
  | SIGCHLD => "SIGCHLD" | SIGCONT => "SIGCONT" | SIGFPE => "SIGFPE"
  | SIGHUP => "SIGHUP" | SIGILL => "SIGILL" | SIGINT => "SIGINT"
  | SIGIO => "SIGIO" | SIGIOT => "SIGIOT" | SIGKILL => "SIGKILL"
  | SIGPIPE => "SIGPIPE" | SIGPOLL => "SIGPOLL" | SIGPROF => "SIGPROF"
  | SIGPWR => "SIGPWR" | SIGQUIT => "SIGQUIT" | SIGSEGV => "SIGSEGV"
  | SIGSTKFLT => "SIGSTKFLT" | SIGSTOP => "SIGSTOP" | SIGSYS => "SIGSYS"
  | SIGTERM => "SIGTERM" | SIGTRAP => "SIGTRAP" | SIGTSTP => "SIGTSTP"
  | SIGTTIN => "SIGTTIN" | SIGTTOU => "SIGTTOU" | SIGUNUSED => "SIGUNUSED"
  | SIGURG => "SIGURG" | SIGUSR1 => "SIGUSR1" | SIGUSR2 => "SIGUSR2"
  | SIGVTALRM => "SIGVTALRM" | SIGWINCH => "SIGWINCH" | SIGXCPU => "SIGXCPU"
  | SIGXFSZ => "SIGXFSZ" | SIGBREAK => "SIGBREAK" | SIGLOST => "SIGLOST"
  | SIGINFO => "SIGINFO"
  end.

(** [fs.Stats] and [fs.Dirent], as far as the tool looks at them. *)
Record Stats : Set := { stats_isFile : bool }.
Record Dirent : Set := { name : string; dirent_isFile : bool }.

(** What the ["exit"] handler of a forked analyzer sees: the text gathered
    from its two streams, its exit code and its signal ([null] is [None]). *)
Record ChildExit : Set := {
  child_stdout : string;
  child_stderr : string;
  child_code : option Z;
  child_signal : option Signals
}.

(* ================================================================== *)
(** ** Data model *)

Record Project : Set := {
  configFilePath : option string;
  tracePath : string;
  typesPath : string
}.

Record ProjectResult : Set := {
  project : Project;
  stdout : string;
  stderr : string;
  exitCode : option Z;
  signal : option Signals
}.

(** An element of [hadHighlights]: a result with its score. *)
Record Highlight : Set := {
  result : ProjectResult;
  score : JS.number
}.

(** Everything outside the program that a run depends on.  The manifest
    is read at the type the source gives it, [Project[]]; every forked
    analyzer is taken to exit. *)
Record Host : Type := {
  traceDir : string;                               (* argv.traceDir *)
  forwardedOptions : list string;                  (* the options of argv *)
  cwd : string;                                    (* process.cwd() *)
  stat : string -> Promise Stats;                  (* fs.promises.stat *)
  readFile : string -> Promise string;             (* fs.promises.readFile *)
  JSON_parse : string -> Promise (list Project);   (* JSON.parse *)
  readdir : string -> Promise (list Dirent);       (* fs.promises.readdir *)
  fork : list string -> ChildExit;                 (* cp.fork of the analyzer *)
  trim : string -> string;                         (* String.prototype.trim *)
  localeCompare : string -> string -> Z            (* String.prototype.localeCompare *)
}.

(* ================================================================== *)
(** ** The two regular expressions of the program *)

Definition is_space (c : ascii) : bool := Ascii.eqb c " ".

(** [/\((\d+)[ ]*ms\)/] tried at the start of [s]; the result is capture
    group 1.  Both quantifiers are followed by a character outside their
    own class, so the greedy choice is the only one that can succeed. *)
Definition marker_at (s : string) : option string :=
  match s with
  | String c r =>
      if Ascii.eqb c "(" then
        let (digits, r1) := Str.span JS.is_digit r in
        if Str.truthy digits then
          let (_, r2) := Str.span is_space r1 in
          if Str.starts_with "ms)" r2 then Some digits else None
        else None
      else None
  | EmptyString => None
  end.

(** [s.match(/\((\d+)[ ]*ms\)/)]: the leftmost position where the
    expression matches, [None] for [null]. *)
Fixpoint match_marker (s : string) : option string :=
  match marker_at s with
  | Some digits => Some digits
  | None =>
      match s with
      | EmptyString => None
      | String _ r => match_marker r
      end
  end.

(** The line terminators that [.] does not match (U+2028 and U+2029, the
    other two, are not one-byte characters). *)
Definition is_line_terminator (c : ascii) : bool :=
  Ascii.eqb c "010" || Ascii.eqb c "013".

(** [name.match(/^trace(.*\.json)$/)]; the result is capture group 1. *)
Definition match_trace_name (name : string) : option string :=
  match Str.strip_prefix "trace" name with
  | Some rest =>
      if Str.ends_with ".json" rest
         && Str.forallb (fun c => negb (is_line_terminator c)) rest
      then Some rest else None
  | None => None
  end.

(* ================================================================== *)
(** ** Numbers in template literals *)

Definition nat_to_string (n : nat) : string :=
  DecimalString.NilZero.string_of_uint (Nat.to_uint n).

Definition Z_to_string (z : Z) : string :=
  DecimalString.NilZero.string_of_int (Z.to_int z).

(** Truthiness of [number | undefined] and of [Signals | undefined]. *)
Definition exitCode_truthy (c : option Z) : bool :=
  match c with
  | Some z => negb (z =? 0)%Z
  | None => false
  end.

Definition signal_truthy (s : option Signals) : bool :=
  match s with
  | Some _ => true
  | None => false
  end.

(** [c !== 1] for [c : number | undefined]. *)
Definition exitCode_is_not_1 (c : option Z) : bool :=
  match c with
  | Some z => negb (z =? 1)%Z
  | None => true
  end.

(** Modelled from the spec: [pushCommandLineOptions] of
    [./analyze-trace-options], which is not among the sources.  It pushes
    the forwarded command-line options onto the array it is given. *)
Definition pushCommandLineOptions (args forwarded : list string) : list string :=
  (args ++ forwarded)%list.

(** [Array.prototype.sort(comparefn)]: a stable sort, here by insertion.
    An element moves past another only where [comparefn] is positive; a
    NaN from [comparefn] counts as zero. *)
Section ArraySort.
Context {A : Type} (comparefn : A -> A -> JS.number).

Fixpoint sort_insert (x : A) (sorted : list A) : list A :=
  match sorted with
  | [] => [x]
  | y :: rest =>
      if JS.is_pos (comparefn x y) then y :: sort_insert x rest
      else x :: sorted
  end.

Definition Array_sort (l : list A) : list A := fold_right sort_insert [] l.
End ArraySort.

(* ================================================================== *)
(** ** The program *)

Section Program.

Variable h : Host.

(** [isFile]: [fs.promises.stat(path).then(stats => stats.isFile()).catch(_ => false)]. *)
Definition isFile (path : string) : Promise bool :=
  Promise_.catch_ (Promise_.then_ (stat h path) stats_isFile) (fun _ => false).

Definition analyzeProject (project : Project) : Promise ProjectResult :=
  Promise_.bind (isFile (typesPath project)) (fun typesExists =>
    let args := [tracePath project] in
    let args := if typesExists : bool
                then (args ++ [typesPath project])%list else args in
    let args := pushCommandLineOptions args (forwardedOptions h) in
    let child := fork h args in
    Resolved {| project := project;
                stdout := trim h (child_stdout child);
                stderr := trim h (child_stderr child);
                exitCode := child_code child;
                signal := child_signal child |}).

Definition getProjectDescription (project : Project) : string :=
  match configFilePath project with
  | Some label =>
      if Str.truthy label
      then label ++ " (" ++ Path.basename (tracePath project) ++ ")"
      else Path.basename (tracePath project)
  | None => Path.basename (tracePath project)
  end.

(** The body of the first loop of [analyzeProjects]: [acc] is the pair
    of arrays [hadHighlights] and [hadErrors]. *)
Definition classify (acc : list Highlight * list ProjectResult)
           (result : ProjectResult) : list Highlight * list ProjectResult :=
  let (hadHighlights, hadErrors) := acc in
  if Str.truthy (stderr result) || signal_truthy (signal result) then
    (hadHighlights, (hadErrors ++ [result])%list)
  else if exitCode_truthy (exitCode result) then
    if exitCode_is_not_1 (exitCode result)
    then (hadHighlights, (hadErrors ++ [result])%list)
    else (hadHighlights, hadErrors)
  else
    let score :=
      match match_marker (stdout result) with
      | Some digits => JS.to_number digits
      | None => JS.Fin 0
      end in
    ((hadHighlights ++ [{| result := result; score := score |}])%list, hadErrors).

(** The comparison function given to [hadHighlights.sort]. *)
Definition compareHighlights (a b : Highlight) : JS.number :=
  JS.or (JS.sub (score b) (score a))
        (JS.Fin (localeCompare h (tracePath (project (result a)))
                                 (tracePath (project (result b))))).

(** [if (!first) console.log(); first = false;], returning [first]. *)
Definition separate (first : bool) : IO bool :=
  when (negb first) (console_log "") ;;; ret false.

Definition printHighlight (projectCount : nat) (first : bool) (hl : Highlight) : IO bool :=
  first <- separate first ;;
  let project := project (result hl) in
  when ((1 <? projectCount)%nat || Str.truthy_opt (configFilePath project))
       (console_log ("Analyzed " ++ getProjectDescription project)) ;;;
  console_log (stdout (result hl)) ;;;
  ret first.

Definition printError (first : bool) (errorResult : ProjectResult) : IO bool :=
  first <- separate first ;;
  let project := project errorResult in
  console_log ("Error analyzing " ++ getProjectDescription project) ;;;
  (if Str.truthy (stderr errorResult) then
     console_log (stderr errorResult)
   else if exitCode_truthy (exitCode errorResult) then
     match exitCode errorResult with
     | Some code => console_log ("Exited with code " ++ Z_to_string code)
     | None => ret tt
     end
   else
     match signal errorResult with
     | Some s => console_log ("Terminated with signal " ++ signal_name s)
     | None => ret tt
     end) ;;;
  ret first.

Definition analyzeProjects (projects : list Project) : IO Z :=
  results <- await (Promise_.all (map analyzeProject projects)) ;;
  let (hadHighlights, hadErrors) := fold_left classify results ([], []) in
  let first := true in
  let projectCount := List.length projects in
  let hadHighlights := Array_sort compareHighlights hadHighlights in
  first <- for_of hadHighlights (printHighlight projectCount) first ;;
  first <- for_of hadErrors printError first ;;
  let interestingCount := (List.length hadHighlights + List.length hadErrors)%nat in
  when (interestingCount <? projectCount)%nat
       (separate first ;;;
        console_log ("Found nothing in "
                     ++ nat_to_string (projectCount - interestingCount)
                     ++ (if (0 <? interestingCount)%nat then " other" else "")
                     ++ " project(s)")) ;;;
  ret (if (0 <? List.length hadErrors)%nat then 2
       else if (0 <? List.length hadHighlights)%nat then 0
       else 1)%Z.

(** The manifest branch of [main]: the body of the [try] block.  The
    result is the value [projects] holds afterwards. *)
Definition readLegend (legendPath : string) : IO (list Project) :=
  legendText <- await (readFile h legendPath) ;;
  projects <- await (JSON_parse h legendText) ;;
  ret (map (fun project =>
              {| configFilePath := configFilePath project;
                 tracePath := Path.resolve (cwd h)
                                [traceDir h; Path.basename (tracePath project)];
                 typesPath := Path.resolve (cwd h)
                                [traceDir h; Path.basename (typesPath project)] |})
           projects).

(** The scanning branch of [main]: the loop over the directory entries. *)
Definition scanEntry (projects : list Project) (entry : Dirent) : list Project :=
  if negb (dirent_isFile entry) then projects
  else
    match match_trace_name (name entry) with
    | Some suffix =>
        (projects ++ [{| configFilePath := None;
                         tracePath := Path.join [traceDir h; name entry];
                         typesPath := Path.join [traceDir h; ("types" ++ suffix)%string] |}])%list
    | None => projects
    end.

Definition scanDirectory : IO (list Project) :=
  entries <- await (readdir h (traceDir h)) ;;
  ret (fold_left scanEntry entries []).

(** The discovery part of [main]: the value of [projects] when
    [analyzeProjects] is called. *)
Definition discover : IO (list Project) :=
  let legendPath := Path.join [traceDir h; "legend.json"] in
  legendIsFile <- await (isFile legendPath) ;;
  projects <-
    (if legendIsFile : bool then
       try_catch
         (ps <- readLegend legendPath ;; ret (Some ps))
         (fun e =>
            console_error ("Error reading legend file: " ++ message e) ;;;
            ret None)
     else ret None) ;;
  match projects with
  | Some ps => ret ps
  | None => scanDirectory
  end.

Definition main : IO Z :=
  projects <- discover ;;
  analyzeProjects projects.

(** The top level: [main().then(code => process.exit(code), err => ...)].
    The result is the console and the exit status of the process. *)
Definition run : Console * Z :=
  match main empty_console with
  | (c, Resolved code) => (c, code)
  | (c, Rejected err) =>
      (fst (console_error ("Internal error: " ++ message err) c), 2%Z)
  end.

End Program.

(* ================================================================== *)
(** ** The vocabulary of the specification *)

(** The analyzer invocation and the result assembly of section 4.2. *)
Definition types_file_exists (h : Host) (p : Project) : bool :=
  match stat h (typesPath p) with
  | Resolved stats => stats_isFile stats
  | Rejected _ => false
  end.

Definition analyzer_arguments (h : Host) (p : Project) : list string :=
  ([tracePath p]
   ++ (if types_file_exists h p then [typesPath p] else [])
   ++ forwardedOptions h)%list.

Definition project_result (h : Host) (p : Project) : ProjectResult :=
  let child := fork h (analyzer_arguments h p) in
  {| project := p;
     stdout := trim h (child_stdout child);
     stderr := trim h (child_stderr child);
     exitCode := child_code child;
     signal := child_signal child |}.

(** The three kinds of a classified result (specification, section 3). *)
Inductive Outcome : Set :=
| IsError
| NothingFound
| IsHighlight (score : JS.number).

(** The kind the first loop of [analyzeProjects] gives a result: the
    array, if any, that [classify] pushes it onto. *)
Definition outcome (r : ProjectResult) : Outcome :=
  match classify ([], []) r with
  | (_, _ :: _) => IsError
  | (hl :: _, []) => IsHighlight (score hl)
  | ([], []) => NothingFound
  end.

Definition is_error (k : Outcome) : bool :=
  match k with IsError => true | _ => false end.

Definition is_highlight (k : Outcome) : bool :=
  match k with IsHighlight _ => true | _ => false end.

(** The Error results, in the order they were encountered. *)
Definition errors_of (results : list ProjectResult) : list ProjectResult :=
  filter (fun r => is_error (outcome r)) results.

(** The Highlight results with their scores, in the order encountered. *)
Definition highlights_of (results : list ProjectResult) : list Highlight :=
  flat_map (fun r => match outcome r with
                     | IsHighlight s => [{| result := r; score := s |}]
                     | _ => []
                     end) results.

(** A parenthesized millisecond marker at the very start of [s], with
    digits [d]: an opening parenthesis, one or more decimal digits, any
    number of spaces, then [ms)]. *)
Definition MarkerHere (s d : string) : Prop :=
  exists sp rest,
    s = "(" ++ d ++ sp ++ "ms)" ++ rest
    /\ d <> ""
    /\ Str.forallb JS.is_digit d = true
    /\ Str.forallb is_space sp = true.

(** [d] is the digit run of the first marker in [s]: no marker starts at
    an earlier position. *)
Inductive FirstMarker : string -> string -> Prop :=
| FirstMarker_here (s d : string) :
    MarkerHere s d -> FirstMarker s d
| FirstMarker_later (c : ascii) (s d : string) :
    (forall d', ~ MarkerHere (String c s) d') ->
    FirstMarker s d -> FirstMarker (String c s) d.

(** [s] contains no marker at any position. *)
Definition NoMarker (s : string) : Prop :=
  forall pre post d, s = pre ++ post -> ~ MarkerHere post d.

(** The classification rules of section 4.3, in priority order. *)
Inductive Classifies (r : ProjectResult) : Outcome -> Prop :=
| Rule1_stderr_or_signal :
    stderr r <> "" \/ signal r <> None ->
    Classifies r IsError
| Rule2_other_exit_code (code : Z) :
    stderr r = "" -> signal r = None ->
    exitCode r = Some code -> code <> 0%Z -> code <> 1%Z ->
    Classifies r IsError
| Rule3_nothing_code :
    stderr r = "" -> signal r = None ->
    exitCode r = Some 1%Z ->
    Classifies r NothingFound
| Rule4_marker (d : string) :
    stderr r = "" -> signal r = None ->
    exitCode r = Some 0%Z \/ exitCode r = None ->
    FirstMarker (stdout r) d ->
    Classifies r (IsHighlight (JS.to_number d))
| Rule4_no_marker :
    stderr r = "" -> signal r = None ->
    exitCode r = Some 0%Z \/ exitCode r = None ->
    NoMarker (stdout r) ->
    Classifies r (IsHighlight (JS.Fin 0)).

(** The final status code of section 4.4, from the kinds of the results. *)
Definition status_of (kinds : list Outcome) : Z :=
  if existsb is_error kinds then 2%Z
  else if existsb is_highlight kinds then 0%Z
  else 1%Z.

(** The report of section 4.4, as blocks of console lines. *)
Module Report.

(** Blocks are separated by one blank line, with none before the first;
    [first] tells whether nothing has been printed yet. *)
Fixpoint render_from (first : bool) (blocks : list (list string)) : list string :=
  match blocks with
  | [] => []
  | b :: rest => ((if first then [] else [""]) ++ b ++ render_from false rest)%list
  end.

Definition render (blocks : list (list string)) : list string :=
  render_from true blocks.

(** A project carries a label when [configFilePath] is a non-empty string. *)
Definition has_label (p : Project) : bool := Str.truthy_opt (configFilePath p).

Definition highlight_entry (projectCount : nat) (hl : Highlight) : list string :=
  let p := project (result hl) in
  if (1 <? projectCount)%nat || has_label p
  then ["Analyzed " ++ getProjectDescription p; stdout (result hl)]
  else [stdout (result hl)].

Definition error_detail (r : ProjectResult) : list string :=
  if Str.truthy (stderr r) then [stderr r]
  else if exitCode_truthy (exitCode r) then
    match exitCode r with
    | Some code => ["Exited with code " ++ Z_to_string code]
    | None => []
    end
  else
    match signal r with
    | Some s => ["Terminated with signal " ++ signal_name s]
    | None => []
    end.

Definition error_entry (r : ProjectResult) : list string :=
  ("Error analyzing " ++ getProjectDescription (project r)) :: error_detail r.

(** The trailing count of the projects that were not printed. *)
Definition summary (projectCount interestingCount : nat) : list (list string) :=
  if (interestingCount <? projectCount)%nat
  then [["Found nothing in " ++ nat_to_string (projectCount - interestingCount)
         ++ (if (0 <? interestingCount)%nat then " other" else "")
         ++ " project(s)"]]
  else [].

Definition blocks (projectCount : nat) (highlights : list Highlight)
           (errs : list ProjectResult) : list (list string) :=
  (map (highlight_entry projectCount) highlights
   ++ map error_entry errs
   ++ summary projectCount (List.length highlights + List.length errs))%list.

End Report.

(** A highlight whose score is one a digit run can give. *)
Definition scored (hl : Highlight) : Prop := JS.is_score (score hl).

(** The order of the Highlight entries (section 4.4): a higher score
    first, and among equal scores the trace path that [localeCompare]
    does not put after the other. *)
Definition ranks_before (h : Host) (a b : Highlight) : Prop :=
  JS.ltb (score b) (score a) = true
  \/ (score a = score b
      /\ (localeCompare h (tracePath (project (result a)))
                          (tracePath (project (result b))) <= 0)%Z).

(** The discovery of section 4.1. *)
Definition legendPath (h : Host) : string :=
  Path.join [traceDir h; "legend.json"].

(** The manifest exists: its path names a plain file. *)
Definition legend_exists (h : Host) : bool :=
  match stat h (legendPath h) with
  | Resolved stats => stats_isFile stats
  | Rejected _ => false
  end.

(** Reading the manifest and parsing it. *)
Definition legend_parse (h : Host) : Promise (list Project) :=
  Promise_.bind (readFile h (legendPath h)) (JSON_parse h).

(** A manifest entry with both file names re-rooted under the target
    directory. *)
Definition rerooted (h : Host) (entry : Project) : Project :=
  {| configFilePath := configFilePath entry;
     tracePath := Path.resolve (cwd h) [traceDir h; Path.basename (tracePath entry)];
     typesPath := Path.resolve (cwd h) [traceDir h; Path.basename (typesPath entry)] |}.

(** The target directory as [path.resolve] sees it. *)
Definition resolvedTraceDir (h : Host) : string :=
  Path.resolve (cwd h) [traceDir h].

(** A directory entry that the scan turns into a project. *)
Definition is_trace_file (entry : Dirent) : bool :=
  dirent_isFile entry
  && match match_trace_name (name entry) with
     | Some _ => true
     | None => false
     end.

(** The console after a call of [console.error]. *)
Definition complained (c : Console) (line : string) : Console :=
  {| logged := logged c; errors := (errors c ++ [line])%list |}.

(** A resolved path stays within the target directory when it is the
    directory itself or lies inside it. *)
Definition within (dir p : string) : Prop :=
  p = dir \/ Path.inside dir p = true.

Definition stays_within (h : Host) (p : Project) : Prop :=
  within (resolvedTraceDir h) (tracePath p)
  /\ within (resolvedTraceDir h) (typesPath p).

(** The whole output of a run is one line of [console.log], and the exit
    status is 1. *)
Definition prints_one_line_and_exits_1 (h : Host) : Prop :=
  exists line, logged (fst (run h)) = [line] /\ snd (run h) = 1%Z.

(* ================================================================== *)
(** ** Sample hosts *)

Module Sample.

(** [localeCompare] in a locale that orders strings by code unit. *)
Definition code_unit_compare (a b : string) : Z :=
  match String.compare a b with
  | Lt => (-1)%Z
  | Eq => 0%Z
  | Gt => 1%Z
  end.

Definition enoent : Error := {| message := "ENOENT: no such file or directory" |}.

Definition file (n : string) : Dirent := {| name := n; dirent_isFile := true |}.

Definition exited (out err : string) (code : Z) : ChildExit :=
  {| child_stdout := out; child_stderr := err;
     child_code := Some code; child_signal := None |}.

(** An analyzer whose behaviour depends on the trace file it is given. *)
Definition analyzer (args : list string) : ChildExit :=
  match args with
  | trace :: _ =>
      if (trace =? "/data/traces/trace-a.json")%string
      then exited "Found X (120ms)" "" 0
      else if (trace =? "/data/traces/trace-b.json")%string
      then exited "" "" 1
      else if (trace =? "/data/traces/trace-c.json")%string
      then exited "Hot spot (120 ms)" "" 0
      else if (trace =? "/data/traces/trace-d.json")%string
      then exited "" "TypeError: boom" 1
      else if (trace =? "/data/traces/trace-e.json")%string
      then exited "Slow (50ms)" "" 0
      else {| child_stdout := ""; child_stderr := "";
              child_code := None; child_signal := Some SIGKILL |}
  | [] => exited "" "usage" 2
  end.

(** A host whose target directory is [/data/traces]: [legend] is what
    parsing the manifest gives, [entries] what the directory lists and
    [files] the paths that are plain files. *)
Definition host (legend : Promise (list Project)) (entries : list Dirent)
           (files : list string) : Host :=
  {| traceDir := "/data/traces";
     forwardedOptions := ["--force-millis"; "500"; "--skip-millis"; "100"];
     cwd := "/home/user";
     stat := fun p => if existsb (String.eqb p) files
                      then Resolved {| stats_isFile := true |}
                      else Rejected enoent;
     readFile := fun p => if existsb (String.eqb p) files
                          then Resolved p else Rejected enoent;
     JSON_parse := fun _ => legend;
     readdir := fun _ => Resolved entries;
     fork := analyzer;
     trim := fun s => s;
     localeCompare := code_unit_compare |}.

Definition no_legend : Promise (list Project) :=
  Rejected {| message := "Unexpected end of JSON input" |}.

(** The directory of the end-to-end scenario of section 8. *)
Definition scenario_host : Host :=
  host no_legend
       [file "trace-a.json"; file "types-a.json"; file "trace-b.json"]
       ["/data/traces/trace-a.json"; "/data/traces/types-a.json";
        "/data/traces/trace-b.json"].

Definition project_a : Project :=
  {| configFilePath := None;
     tracePath := "/data/traces/trace-a.json";
     typesPath := "/data/traces/types-a.json" |}.

Definition project_b : Project :=
  {| configFilePath := None;
     tracePath := "/data/traces/trace-b.json";
     typesPath := "/data/traces/types-b.json" |}.

(** An empty directory. *)
Definition empty_dir_host : Host := host no_legend [] [].

(** A directory without any plain file named like a trace: a note, a
    types file and a sub-directory that only looks like a trace. *)
Definition no_trace_entries : list Dirent :=
  [file "notes.txt"; file "types-a.json";
   {| name := "trace-x.json"; dirent_isFile := false |}].

Definition no_trace_host : Host :=
  host no_legend no_trace_entries
       ["/data/traces/notes.txt"; "/data/traces/types-a.json"].

(** A directory with five traces: two tied highlights, a lower one, an
    error and a project with nothing to report. *)
Definition ranking_host : Host :=
  host no_legend
       [file "trace-e.json"; file "trace-c.json"; file "trace-d.json";
        file "trace-a.json"; file "trace-b.json"]
       ["/data/traces/trace-a.json"].

Definition scanned_project (suffix : string) : Project :=
  {| configFilePath := None;
     tracePath := "/data/traces/trace" ++ suffix;
     typesPath := "/data/traces/types" ++ suffix |}.

Definition ranking_projects : list Project :=
  map scanned_project ["-e.json"; "-c.json"; "-d.json"; "-a.json"; "-b.json"].

(** A directory whose only trace makes the analyzer write to its
    standard error. *)
Definition single_error_host : Host :=
  host no_legend [file "trace-d.json"] ["/data/traces/trace-d.json"].

(** A manifest whose only entry names its files with traversal segments. *)
Definition traversal_manifest : list Project :=
  [{| configFilePath := Some "/src/tsconfig.json";
      tracePath := "../..";
      typesPath := "../../evil.json" |}].

Definition traversal_host : Host :=
  host (Resolved traversal_manifest) [] ["/data/traces/legend.json"].

(** A manifest that does not parse, next to two traces. *)
Definition broken_legend_host : Host :=
  host (Rejected {| message := "Unexpected token } in JSON at position 1" |})
       [file "legend.json"; file "trace-a.json"; file "trace-b.json"]
       ["/data/traces/legend.json"; "/data/traces/trace-a.json";
        "/data/traces/trace-b.json"].

(** A manifest that parses to no entry, next to a trace. *)
Definition empty_legend_host : Host :=
  host (Resolved [])
       [file "legend.json"; file "trace-a.json"]
       ["/data/traces/legend.json"; "/data/traces/trace-a.json"].

End Sample.

(* ================================================================== *)
(** ** Further vocabulary: the scan, the counts, the top level *)

(** What follows [trace] in a file name. *)
Definition trace_suffix (name : string) : string :=
  match Str.strip_prefix "trace" name with
  | Some rest => rest
  | None => ""
  end.

(** The project the scan makes of a directory entry named like a trace. *)
Definition trace_project (h : Host) (entry : Dirent) : Project :=
  {| configFilePath := None;
     tracePath := Path.join [traceDir h; name entry];
     typesPath := Path.join [traceDir h; ("types" ++ trace_suffix (name entry))%string] |}.

Definition is_nothing (k : Outcome) : bool :=
  match k with NothingFound => true | _ => false end.

(** The number of results that are neither a Highlight nor an Error. *)
Definition nothing_count (results : list ProjectResult) : nat :=
  List.length (filter (fun r => is_nothing (outcome r)) results).

(** The trailing line of the report for [nothing] unprinted projects
    beside [interesting] printed ones; no line without unprinted projects. *)
Definition count_line (nothing interesting : nat) : list (list string) :=
  if (nothing =? 0)%nat then []
  else [["Found nothing in " ++ nat_to_string nothing
         ++ (if (0 <? interesting)%nat then " other" else "")
         ++ " project(s)"]].

(** The statuses a run can exit with. *)
Definition is_exit_status (code : Z) : Prop :=
  code = 0%Z \/ code = 1%Z \/ code = 2%Z.

(** The same host with another behaviour of [fs.promises.readdir]. *)
Definition with_readdir (h : Host) (rd : string -> Promise (list Dirent)) : Host :=
  {| traceDir := traceDir h;
     forwardedOptions := forwardedOptions h;
     cwd := cwd h;
     stat := stat h;
     readFile := readFile h;
     JSON_parse := JSON_parse h;
     readdir := rd;
     fork := fork h;
     trim := trim h;
     localeCompare := localeCompare h |}.

(** A base name that names something inside a directory: not empty, not
    one dot, not two dots. *)
Definition regular_name (b : string) : Prop :=
  b <> "" /\ b <> "." /\ b <> "..".

(** The line terminators are absent from a string. *)
Definition one_line (s : string) : Prop :=
  Str.forallb (fun c => negb (is_line_terminator c)) s = true.

Module MoreSamples.

(** A target directory that cannot be listed, with and without a broken
    manifest in front of it. *)
Definition eacces : Error := {| message := "EACCES: permission denied, scandir" |}.

Definition unreadable (legend_is_file : bool) : Host :=
  {| traceDir := "/data/traces";
     forwardedOptions := [];
     cwd := "/home/user";
     stat := fun _ => if legend_is_file
                      then Resolved {| stats_isFile := true |}
                      else Rejected Sample.enoent;
     readFile := fun _ => Rejected eacces;
     JSON_parse := fun _ => Sample.no_legend;
     readdir := fun _ => Rejected eacces;
     fork := Sample.analyzer;
     trim := fun s => s;
     localeCompare := Sample.code_unit_compare |}.

(** A directory with one trace, whose analysis is a highlight. *)
Definition single_trace_host : Host :=
  Sample.host Sample.no_legend
              [Sample.file "notes.txt"; Sample.file "trace-a.json"]
              ["/data/traces/trace-a.json"].

(** A directory where every analysis finds nothing. *)
Definition quiet_host : Host :=
  Sample.host Sample.no_legend
              [Sample.file "trace-b.json"]
              ["/data/traces/trace-b.json"].

(** A manifest entry written with the absolute paths of another machine. *)
Definition foreign_entry : Project :=
  {| configFilePath := Some "/build/tsconfig.json";
     tracePath := "/build/out/trace.1.json";
     typesPath := "/build/out/types.1.json" |}.

Definition signalled : ProjectResult :=
  {| project := Sample.project_a; stdout := ""; stderr := "";
     exitCode := None; signal := Some SIGSEGV |}.

End MoreSamples.

(* ================================================================== *)
(** ** The manifest as [JSON.parse] gives it

    [JSON.parse] returns a value of any shape, which [main] assigns to
    [projects] before the loop of lines 58-61 looks at it.  Here the
    manifest is read without the type [Project[]]: an array whose elements
    may lack the two paths, or a value that is no array. *)

(** An element of the parsed array, as the loop sees it.  A path is a
    string, or a value on which the loop throws: [path.basename] throws
    on what is not a string, and reading a property of [null] throws. *)
Record LegendEntry : Set := {
  entry_label : option string;
  entry_trace : Error + string;
  entry_types : Error + string
}.

(** The parsed manifest: an array, or another value, of which the program
    only sees whether it is truthy and what [for ... of] throws on it
    (nothing on the empty string). *)
Inductive LegendValue : Set :=
| LegendArray (entries : list LegendEntry)
| LegendOther (truthy : bool) (thrown : option Error).

(** The value of [projects] when [analyzeProjects] is called. *)
Inductive Discovered : Set :=
| FromLegend (value : LegendValue)
| FromScan (projects : list Project).

Definition legend_truthy (value : LegendValue) : bool :=
  match value with
  | LegendArray _ => true
  | LegendOther truthy _ => truthy
  end.

Section RawManifest.

Variable h : Host.

(** [JSON.parse] on the text of the manifest. *)
Variable parseLegend : string -> Promise LegendValue.

(** One turn of the loop of lines 58-61, on the object [entry]: the
    entry afterwards, and what was thrown.  An assignment made before the
    throw stays. *)
Definition rerootEntry (entry : LegendEntry) : LegendEntry * option Error :=
  match entry_trace entry with
  | inl thrown => (entry, Some thrown)
  | inr trace =>
      let entry1 :=
        {| entry_label := entry_label entry;
           entry_trace := inr (Path.resolve (cwd h) [traceDir h; Path.basename trace]);
           entry_types := entry_types entry |} in
      match entry_types entry with
      | inl thrown => (entry1, Some thrown)
      | inr types =>
          ({| entry_label := entry_label entry1;
              entry_trace := entry_trace entry1;
              entry_types := inr (Path.resolve (cwd h) [traceDir h; Path.basename types]) |},
           None)
      end
  end.

(** The loop over the array: it stops at the first throw, leaving the
    later elements as they were. *)
Fixpoint rerootLoop (entries : list LegendEntry) : list LegendEntry * option Error :=
  match entries with
  | [] => ([], None)
  | entry :: rest =>
      match rerootEntry entry with
      | (entry', Some thrown) => (entry' :: rest, Some thrown)
      | (entry', None) =>
          let (rest', thrown) := rerootLoop rest in (entry' :: rest', thrown)
      end
  end.

(** [for (const project of projects!) { ... }] on the parsed value. *)
Definition forOfLegend (value : LegendValue) : LegendValue * option Error :=
  match value with
  | LegendArray entries =>
      let (entries', thrown) := rerootLoop entries in (LegendArray entries', thrown)
  | LegendOther _ thrown => (value, thrown)
  end.

(** The [try] statement of lines 54-65; the result is the value of
    [projects] after it.  What [readFile] or [JSON.parse] throws leaves
    [projects] undefined; what the loop throws finds it assigned. *)
Definition readLegendRaw (legendPath : string) : IO (option LegendValue) :=
  try_catch
    (legendText <- await (readFile h legendPath) ;;
     projects <- await (parseLegend legendText) ;;
     let (projects', thrown) := forOfLegend projects in
     match thrown with
     | None => ret (Some projects')
     | Some e =>
         console_error ("Error reading legend file: " ++ message e) ;;;
         ret (Some projects')
     end)
    (fun e =>
       console_error ("Error reading legend file: " ++ message e) ;;;
       ret None).

(** Lines 50-83 of [main]. *)
Definition discoverRaw : IO Discovered :=
  let legendPath := Path.join [traceDir h; "legend.json"] in
  legendIsFile <- await (isFile h legendPath) ;;
  projects <- (if legendIsFile : bool then readLegendRaw legendPath else ret None) ;;
  match projects with
  | Some value =>
      if legend_truthy value then ret (FromLegend value)
      else (scanned <- scanDirectory h ;; ret (FromScan scanned))
  | None => scanned <- scanDirectory h ;; ret (FromScan scanned)
  end.

End RawManifest.

(** A manifest entry of the type the source declares, as an element of
    the parsed array. *)
Definition entry_of_project (p : Project) : LegendEntry :=
  {| entry_label := configFilePath p;
     entry_trace := inr (tracePath p);
     entry_types := inr (typesPath p) |}.

(** [JSON.parse] of a host whose manifests have the declared type. *)
Definition parseTyped (h : Host) (text : string) : Promise LegendValue :=
  Promise_.then_ (JSON_parse h text) (fun ps => LegendArray (map entry_of_project ps)).





(** The manifest exists and has been read and parsed. *)
Definition manifest_used (h : Host) : bool :=
  legend_exists h
  && match legend_parse h with
     | Resolved _ => true
     | Rejected _ => false
     end.

(** The projects of the scan, as discovery gives them. *)
Definition scan_of (h : Host) (entries : list Dirent) : Discovered :=
  FromScan (map (trace_project h) (filter is_trace_file entries)).

(* ================================================================== *)
(** ** Orders of the trace paths *)

(** The order of the Highlight entries with ties broken by the
    lexicographic order of the code units of the trace paths. *)
Definition lexicographic_ranks_before (a b : Highlight) : Prop :=
  JS.ltb (score b) (score a) = true
  \/ (score a = score b
      /\ (Sample.code_unit_compare (tracePath (project (result a)))
                                   (tracePath (project (result b))) <= 0)%Z).

(** The report lists the highlights in that order, then the errors. *)
Definition report_in_lexicographic_order (h : Host) (projects : list Project)
           (c : Console) : Prop :=
  let results := map (project_result h) projects in
  exists highlights,
    Permutation (highlights_of results) highlights
    /\ StronglySorted lexicographic_ranks_before highlights
    /\ logged (fst (analyzeProjects h projects c))
       = (logged c
          ++ Report.render
               (map (Report.highlight_entry (List.length projects)) highlights
                ++ map Report.error_entry (errors_of results)
                ++ Report.summary (List.length projects)
                     (List.length highlights + List.length (errors_of results))))%list.

(** [localeCompare] as the default collation orders two strings that
    differ in ASCII letters only: by the letters without regard to case
    and, when that makes no difference, lower case before upper case. *)
Module Collation.

Definition is_upper (c : ascii) : bool :=
  let n := nat_of_ascii c in (65 <=? n)%nat && (n <=? 90)%nat.

Definition to_lower (c : ascii) : ascii :=
  if is_upper c then ascii_of_nat (nat_of_ascii c + 32) else c.

Fixpoint fold_case (s : string) : string :=
  match s with
  | EmptyString => EmptyString
  | String c r => String (to_lower c) (fold_case r)
  end.

Definition localeCompare (a b : string) : Z :=
  match String.compare (fold_case a) (fold_case b) with
  | Lt => (-1)%Z
  | Gt => 1%Z
  | Eq => match String.compare a b with
          | Lt => 1%Z
          | Eq => 0%Z
          | Gt => (-1)%Z
          end
  end.

End Collation.

Module RevSamples.

(** An analyzer that reports the same duration for every trace. *)
Definition tied_analyzer (args : list string) : ChildExit :=
  Sample.exited "Found X (120ms)" "" 0.

(** A directory with two traces whose names differ in the case of one
    letter, listed upper case first, on a host with the collation above. *)
Definition collating_host : Host :=
  {| traceDir := "/data/traces";
     forwardedOptions := [];
     cwd := "/home/user";
     stat := fun _ => Rejected Sample.enoent;
     readFile := fun _ => Rejected Sample.enoent;
     JSON_parse := fun _ => Sample.no_legend;
     readdir := fun _ => Resolved [Sample.file "trace-B.json"; Sample.file "trace-a.json"];
     fork := tied_analyzer;
     trim := fun s => s;
     localeCompare := Collation.localeCompare |}.

Definition collating_projects : list Project :=
  map Sample.scanned_project ["-B.json"; "-a.json"].

(** A directory with a manifest beside a trace. *)
Definition manifest_host : Host :=
  Sample.host Sample.no_legend
              [Sample.file "legend.json"; Sample.file "trace-a.json"]
              ["/data/traces/legend.json"; "/data/traces/trace-a.json";
               "/data/traces/types-a.json"].

Definition quote : string := String (ascii_of_nat 34) EmptyString.

(** What [path.basename] throws on [undefined]. *)
Definition not_a_string : Error :=
  {| message := "The " ++ quote ++ "path" ++ quote
                ++ " argument must be of type string. Received undefined" |}.

(** The manifest [[{ configFilePath: ..., typesPath: ... }]]: valid
    JSON, whose only entry has no trace path. *)
Definition entry_without_trace : LegendEntry :=
  {| entry_label := Some "/src/tsconfig.json";
     entry_trace := inl not_a_string;
     entry_types := inr "/src/out/types-a.json" |}.

Definition parse_malformed (text : string) : Promise LegendValue :=
  Resolved (LegendArray [entry_without_trace]).

(** A manifest whose text is not JSON. *)
Definition syntax_error : Error :=
  {| message := "Unexpected token } in JSON at position 1" |}.

Definition parse_broken (text : string) : Promise LegendValue :=
  Rejected syntax_error.

End RevSamples.

(* ================================================================== *)
(** * Properties *)

(** ** Numbers *)

Module JSFacts.
Import JS.

Lemma size_le_53 (n : N) : (n < 2 ^ 53)%N -> (N.size n <= 53)%N.
Proof.
  intros Hn. destruct (N.eq_dec n 0) as [-> | Hnz]; [cbn; lia |].
  rewrite N.size_log2 by assumption.
  apply N.le_succ_l, N.log2_lt_pow2; lia.
Qed.

(** Below [2^53] every integer is a double. *)
Lemma round53_exact (n : N) : (n < 2 ^ 53)%N -> round53 n = n.
Proof.
  intros Hn. unfold round53.
  apply size_le_53 in Hn. apply N.leb_le in Hn. now rewrite Hn.
Qed.

(** Rounding never reaches zero from a positive number. *)
Lemma round53_eq_0 (n : N) : round53 n = 0%N -> n = 0%N.
Proof.
  unfold round53.
  destruct (N.size n <=? 53)%N eqn:Hsz; [easy |].
  apply N.leb_gt in Hsz. intros Hr.
  apply N.shiftl_eq_0_iff in Hr.
  destruct (N.eq_dec n 0) as [-> | Hnz]; [reflexivity | exfalso].
  assert (Hq : N.shiftr n (N.size n - 53) <> 0%N).
  { rewrite N.shiftr_eq_0_iff. intros [H0 | [_ Hlt]]; [easy |].
    rewrite N.size_log2 in Hlt, Hsz by assumption. lia. }
  destruct (_ || _) in Hr; lia.
Qed.

Lemma of_Z_is_pos (z : Z) : is_pos (of_Z z) = (0 <? z)%Z.
Proof.
  unfold of_Z.
  pose proof (round53_eq_0 (Z.abs_N z)) as H0.
  destruct (2 ^ 1024 <=? round53 (Z.abs_N z))%N eqn:Hbig.
  - destruct (Z.eq_dec z 0) as [-> | Hnz]; [vm_compute in Hbig; discriminate |].
    destruct (z <? 0)%Z eqn:Hz; cbn; symmetry.
    + apply Z.ltb_lt in Hz. apply Z.ltb_ge. lia.
    + apply Z.ltb_ge in Hz. apply Z.ltb_lt. lia.
  - cbn. destruct (0 <? z)%Z eqn:Hz.
    + apply Z.ltb_lt in Hz. apply Z.ltb_lt. rewrite Z.sgn_pos by lia. lia.
    + apply Z.ltb_ge in Hz. apply Z.ltb_ge.
      destruct (Z.eq_dec z 0) as [-> | ?]; [cbn; lia |].
      rewrite Z.sgn_neg by lia. lia.
Qed.

Lemma of_Z_truthy (z : Z) : truthy (of_Z z) = negb (z =? 0)%Z.
Proof.
  unfold of_Z.
  pose proof (round53_eq_0 (Z.abs_N z)) as H0.
  destruct (2 ^ 1024 <=? round53 (Z.abs_N z))%N eqn:Hbig.
  - destruct (z =? 0)%Z eqn:Hz.
    + apply Z.eqb_eq in Hz. subst z. vm_compute in Hbig. discriminate.
    + now destruct (z <? 0)%Z.
  - cbn. f_equal. destruct (z =? 0)%Z eqn:Hz.
    + apply Z.eqb_eq in Hz. subst z. reflexivity.
    + apply Z.eqb_neq in Hz. apply Z.eqb_neq.
      destruct (Z.lt_total z 0) as [Hn | [? | Hp]]; [| easy |].
      * rewrite Z.sgn_neg by lia. lia.
      * rewrite Z.sgn_pos by lia. lia.
Qed.

Lemma to_number_is_score (d : string) : is_score (to_number d).
Proof.
  unfold to_number, of_Z.
  destruct (_ <=? _)%N.
  - destruct (_ <? 0)%Z eqn:Hz; [apply Z.ltb_lt in Hz; lia | exact I].
  - unfold is_score. apply Z.mul_nonneg_nonneg; [apply Z.sgn_nonneg |]; lia.
Qed.

(** A digit run below [2^53] is read exactly. *)
Lemma to_number_exact (d : string) :
  (decimal_value d < 2 ^ 53)%N ->
  to_number d = Fin (Z.of_N (decimal_value d)).
Proof.
  intros Hd. unfold to_number, of_Z.
  rewrite Zabs2N.id, round53_exact by assumption.
  assert (Hlt : (2 ^ 1024 <=? decimal_value d)%N = false).
  { apply N.leb_gt. eapply N.lt_trans; [exact Hd | reflexivity]. }
  rewrite Hlt. f_equal.
  destruct (decimal_value d); cbn; lia.
Qed.

(** On scores, the sign of [y - x] tells which is larger, and the
    difference is falsy exactly when they are equal. *)
Lemma sub_is_pos (x y : number) :
  is_score x -> is_score y -> is_pos (sub y x) = ltb x y.
Proof.
  destruct x, y; cbn; try easy. intros _ _. rewrite of_Z_is_pos.
  destruct (z <? z0)%Z eqn:Hlt.
  - apply Z.ltb_lt in Hlt. apply Z.ltb_lt. lia.
  - apply Z.ltb_ge in Hlt. apply Z.ltb_ge. lia.
Qed.

End JSFacts.

(** ** Sorting *)

Section SortFacts.
Context {A : Type} (comparefn : A -> A -> JS.number).
Variable P : A -> Prop.
Variable R : A -> A -> Prop.
Hypothesis R_when_not_pos :
  forall x y, P x -> P y -> JS.is_pos (comparefn x y) = false -> R x y.
Hypothesis R_when_pos :
  forall x y, P x -> P y -> JS.is_pos (comparefn x y) = true -> R y x.
Hypothesis R_trans :
  forall x y z, P x -> P y -> P z -> R x y -> R y z -> R x z.

Lemma sort_insert_perm (x : A) (l : list A) :
  Permutation (x :: l) (sort_insert comparefn x l).
Proof.
  induction l as [| y l IH]; cbn; [reflexivity |].
  destruct (JS.is_pos (comparefn x y)); [| reflexivity].
  rewrite perm_swap. now constructor.
Qed.

Lemma Array_sort_perm (l : list A) : Permutation l (Array_sort comparefn l).
Proof.
  induction l as [| x l IH]; cbn; [constructor |].
  rewrite <- sort_insert_perm. now constructor.
Qed.

Lemma Array_sort_length (l : list A) :
  List.length (Array_sort comparefn l) = List.length l.
Proof. symmetry. apply Permutation_length, Array_sort_perm. Qed.

Lemma sort_insert_sorted (x : A) (l : list A) :
  P x -> Forall P l -> StronglySorted R l ->
  StronglySorted R (sort_insert comparefn x l).
Proof.
  intros Px. induction l as [| y l IH]; intros Pl Hs; cbn.
  - repeat constructor.
  - inversion Pl as [| ? ? Py Pl']; subst.
    apply StronglySorted_inv in Hs as [Hs Hy].
    destruct (JS.is_pos (comparefn x y)) eqn:Hc.
    + constructor; [now apply IH |].
      eapply Permutation_Forall; [apply sort_insert_perm |].
      constructor; [now apply R_when_pos | assumption].
    + assert (Rxy : R x y) by now apply R_when_not_pos.
      constructor; [now constructor |].
      constructor; [assumption |].
      rewrite Forall_forall in *. intros z Hz.
      apply (R_trans x y z); auto.
Qed.

Lemma Array_sort_sorted (l : list A) :
  Forall P l -> StronglySorted R (Array_sort comparefn l).
Proof.
  induction l as [| x l IH]; intros Pl; cbn; [constructor |].
  inversion Pl; subst.
  apply sort_insert_sorted; auto.
  eapply Permutation_Forall; [apply Array_sort_perm | assumption].
Qed.

End SortFacts.

(** ** The order of the Highlight entries *)

Module RankFacts.
Import JS JSFacts.

Lemma ltb_trans (x y z : number) :
  ltb x y = true -> ltb y z = true -> ltb x z = true.
Proof.
  destruct x, y, z; cbn; try easy.
  rewrite !Z.ltb_lt. lia.
Qed.

(** Two scores are equal exactly when their difference is falsy. *)
Lemma sub_falsy (x y : number) :
  is_score x -> is_score y -> truthy (sub y x) = false -> x = y.
Proof.
  destruct x, y; cbn; try easy. intros _ _.
  rewrite of_Z_truthy, negb_false_iff, Z.eqb_eq. intros. f_equal. lia.
Qed.

Lemma sub_truthy (x y : number) :
  is_score x -> is_score y -> truthy (sub y x) = true ->
  ltb x y = true \/ ltb y x = true.
Proof.
  destruct x, y; cbn; try easy; auto. intros _ _.
  rewrite of_Z_truthy, negb_true_iff, Z.eqb_neq, !Z.ltb_lt. lia.
Qed.

Section Compare.
Variable h : Host.
Hypothesis localeCompare_total :
  forall a b, (0 < localeCompare h a b)%Z -> (localeCompare h b a <= 0)%Z.
Hypothesis localeCompare_trans :
  forall a b c, (localeCompare h a b <= 0)%Z -> (localeCompare h b c <= 0)%Z ->
                (localeCompare h a c <= 0)%Z.

Lemma ranks_when_not_pos (a b : Highlight) :
  scored a -> scored b ->
  is_pos (compareHighlights h a b) = false -> ranks_before h a b.
Proof.
  unfold scored, compareHighlights, JS.or, ranks_before. intros Sa Sb.
  destruct (truthy (sub (score b) (score a))) eqn:Ht.
  - rewrite sub_is_pos by assumption. intros Hn.
    destruct (sub_truthy _ _ Sa Sb Ht) as [Hlt | Hlt]; [congruence | now left].
  - apply sub_falsy in Ht; try assumption. cbn. rewrite Z.ltb_ge. now right.
Qed.

Lemma ranks_when_pos (a b : Highlight) :
  scored a -> scored b ->
  is_pos (compareHighlights h a b) = true -> ranks_before h b a.
Proof.
  unfold scored, compareHighlights, JS.or, ranks_before. intros Sa Sb.
  destruct (truthy (sub (score b) (score a))) eqn:Ht.
  - rewrite sub_is_pos by assumption. now left.
  - apply sub_falsy in Ht; try assumption. cbn. rewrite Z.ltb_lt.
    intros Hp. right. split; [easy | now apply localeCompare_total].
Qed.

Lemma ranks_before_trans (a b c : Highlight) :
  scored a -> scored b -> scored c ->
  ranks_before h a b -> ranks_before h b c -> ranks_before h a c.
Proof.
  unfold ranks_before. intros _ _ _ [Hab | [Eab Lab]] [Hbc | [Ebc Lbc]].
  - left. eapply ltb_trans; eassumption.
  - left. now rewrite <- Ebc.
  - left. now rewrite Eab.
  - right. split; [congruence | eapply localeCompare_trans; eassumption].
Qed.

(** Sorting with [compareHighlights] puts scored highlights in rank
    order and keeps every one of them. *)
Lemma sort_highlights (l : list Highlight) :
  Forall scored l ->
  Permutation l (Array_sort (compareHighlights h) l)
  /\ StronglySorted (ranks_before h) (Array_sort (compareHighlights h) l).
Proof.
  intros Hl. split; [apply Array_sort_perm |].
  apply (Array_sort_sorted (compareHighlights h) scored).
  - exact ranks_when_not_pos.
  - exact ranks_when_pos.
  - exact ranks_before_trans.
  - exact Hl.
Qed.

End Compare.
End RankFacts.

(** ** Strings *)

Module StrFacts.
Import Str.

Lemma truthy_true (s : string) : truthy s = true <-> s <> "".
Proof. destruct s; cbn; split; congruence. Qed.

Lemma truthy_false (s : string) : truthy s = false <-> s = "".
Proof. destruct s; cbn; split; congruence. Qed.

Lemma append_assoc (a b c : string) : (a ++ b) ++ c = a ++ b ++ c.
Proof. induction a; cbn; congruence. Qed.

Lemma strip_prefix_spec (p s r : string) :
  strip_prefix p s = Some r <-> s = p ++ r.
Proof.
  revert s. induction p as [| a p IH]; intros s; cbn.
  - split; congruence.
  - destruct s as [| b s]; [split; discriminate |].
    destruct (Ascii.eqb_spec a b) as [-> | Hne].
    + rewrite IH. split; congruence.
    + split; [discriminate | congruence].
Qed.

Lemma starts_with_spec (p s : string) :
  starts_with p s = true <-> exists r, s = p ++ r.
Proof.
  unfold starts_with. destruct (strip_prefix p s) as [r |] eqn:E.
  - apply strip_prefix_spec in E. split; eauto.
  - split; [discriminate |]. intros [r Hr].
    apply strip_prefix_spec in Hr. congruence.
Qed.

Lemma span_spec (f : ascii -> bool) (s a b : string) :
  span f s = (a, b) <-> s = a ++ b /\ forallb f a = true /\ stops f b.
Proof.
  revert a b. induction s as [| c s IH]; intros a b; cbn.
  - split.
    + intros [= <- <-]. now cbn.
    + intros (Hs & _ & _). destruct a; [| discriminate]. cbn in Hs. now subst.
  - destruct (f c) eqn:Hc.
    + destruct (span f s) as [a' b'] eqn:E. split.
      * intros [= <- <-]. destruct (proj1 (IH a' b') eq_refl) as (-> & Ha & Hb).
        cbn. now rewrite Hc, Ha.
      * intros (Hs & Ha & Hb). destruct a as [| c' a].
        -- cbn in Hs. subst b. cbn in Hb. congruence.
        -- cbn in Hs, Ha. injection Hs as <- ->.
           apply andb_true_iff in Ha as [_ Ha].
           assert (E' : (a', b') = (a, b)) by (apply IH; auto).
           now injection E' as -> ->.
    + split.
      * intros [= <- <-]. now cbn.
      * intros (Hs & Ha & Hb). destruct a as [| c' a].
        -- cbn in Hs. now subst.
        -- cbn in Hs, Ha. injection Hs as <- ->. rewrite Hc in Ha. discriminate.
Qed.

End StrFacts.

(** ** The score marker *)

Module MarkerFacts.
Import Str StrFacts.

Lemma space_is_not_digit (c : ascii) : is_space c = true -> JS.is_digit c = false.
Proof. unfold is_space. intros H. apply Ascii.eqb_eq in H. now subst. Qed.

(** [marker_at] decides [MarkerHere], and finds its digits. *)
Lemma marker_at_spec (s d : string) : marker_at s = Some d <-> MarkerHere s d.
Proof.
  unfold marker_at, MarkerHere. split.
  - destruct s as [| c r]; [discriminate |].
    destruct (Ascii.eqb_spec c "(") as [-> | ?]; [| discriminate].
    destruct (span JS.is_digit r) as [digits r1] eqn:E1.
    destruct (truthy digits) eqn:Ht; [| discriminate].
    destruct (span is_space r1) as [sp r2] eqn:E2.
    destruct (starts_with "ms)" r2) eqn:E3; [| discriminate].
    intros [= <-].
    apply span_spec in E1 as (-> & Hd & _).
    apply span_spec in E2 as (-> & Hsp & _).
    apply starts_with_spec in E3 as [rest ->].
    exists sp, rest. repeat split; auto. now apply truthy_true.
  - intros (sp & rest & -> & Hne & Hd & Hsp).
    assert (E2 : span is_space (sp ++ "ms)" ++ rest) = (sp, "ms)" ++ rest))
      by (apply span_spec; repeat split; auto).
    assert (E1 : span JS.is_digit (d ++ sp ++ "ms)" ++ rest)
                 = (d, sp ++ "ms)" ++ rest)).
    { apply span_spec. repeat split; auto.
      destruct sp as [| c sp]; cbn; [reflexivity |].
      cbn in Hsp. apply andb_true_iff in Hsp as [Hc _].
      now apply space_is_not_digit. }
    apply truthy_true in Hne. cbn in E1, E2 |- *.
    rewrite E1, Hne, E2. reflexivity.
Qed.

Lemma marker_at_none (s : string) :
  marker_at s = None <-> forall d, ~ MarkerHere s d.
Proof.
  split.
  - intros Hn d Hd. apply marker_at_spec in Hd. congruence.
  - intros Hn. destruct (marker_at s) as [d |] eqn:E; [| reflexivity].
    apply marker_at_spec in E. now apply Hn in E.
Qed.

Lemma match_marker_unfold (s : string) :
  match_marker s =
  match marker_at s with
  | Some digits => Some digits
  | None => match s with
            | EmptyString => None
            | String _ r => match_marker r
            end
  end.
Proof. destruct s; reflexivity. Qed.

(** [match_marker] finds the digits of the first marker. *)
Lemma match_marker_first (s d : string) :
  match_marker s = Some d <-> FirstMarker s d.
Proof.
  split.
  - induction s as [| c r IH]; rewrite match_marker_unfold.
    + destruct (marker_at "") eqn:E; [| discriminate].
      intros [= ->]. now apply FirstMarker_here, marker_at_spec.
    + destruct (marker_at (String c r)) eqn:E.
      * intros [= ->]. now apply FirstMarker_here, marker_at_spec.
      * intros Hm. apply FirstMarker_later; [now apply marker_at_none | auto].
  - induction 1 as [s d Hd | c s d Hn _ IH]; rewrite match_marker_unfold.
    + apply marker_at_spec in Hd. now rewrite Hd.
    + apply marker_at_none in Hn. now rewrite Hn.
Qed.

Lemma FirstMarker_occurs (s d : string) :
  FirstMarker s d -> exists pre post, s = pre ++ post /\ MarkerHere post d.
Proof.
  induction 1 as [s d Hd | c s d _ _ (pre & post & -> & Hd)].
  - now exists "", s.
  - now exists (String c pre), post.
Qed.

(** [match_marker] answers [null] exactly when there is no marker. *)
Lemma match_marker_none (s : string) : match_marker s = None <-> NoMarker s.
Proof.
  split.
  - induction s as [| c r IH]; rewrite match_marker_unfold; intros Hm pre post d Hs Hd.
    + destruct pre; [| discriminate]. cbn in Hs. subst post.
      apply marker_at_spec in Hd. rewrite Hd in Hm. discriminate.
    + destruct (marker_at (String c r)) eqn:E; [discriminate |].
      destruct pre as [| c' pre]; cbn in Hs.
      * subst post. apply marker_at_spec in Hd. congruence.
      * injection Hs as <- ->. exact (IH Hm pre post d eq_refl Hd).
  - intros Hn. destruct (match_marker s) as [d |] eqn:E; [| reflexivity].
    apply match_marker_first, FirstMarker_occurs in E as (pre & post & Hs & Hd).
    destruct (Hn pre post d Hs Hd).
Qed.

End MarkerFacts.

(** ** Classification *)

Module ClassifyFacts.
Import StrFacts MarkerFacts.

(** The score [classify] gives a result it files as a Highlight. *)
Lemma outcome_eq (r : ProjectResult) :
  outcome r =
  if Str.truthy (stderr r) || signal_truthy (signal r) then IsError
  else if exitCode_truthy (exitCode r) then
    (if exitCode_is_not_1 (exitCode r) then IsError else NothingFound)
  else IsHighlight match match_marker (stdout r) with
                   | Some digits => JS.to_number digits
                   | None => JS.Fin 0
                   end.
Proof.
  unfold outcome, classify.
  destruct (Str.truthy (stderr r) || signal_truthy (signal r)); [reflexivity |].
  destruct (exitCode_truthy (exitCode r)); [| reflexivity].
  now destruct (exitCode_is_not_1 (exitCode r)).
Qed.

(** [classify] pushes a result onto the array of its kind. *)
Lemma classify_outcome (hadHighlights : list Highlight)
      (hadErrors : list ProjectResult) (r : ProjectResult) :
  classify (hadHighlights, hadErrors) r =
  match outcome r with
  | IsError => (hadHighlights, hadErrors ++ [r])%list
  | NothingFound => (hadHighlights, hadErrors)
  | IsHighlight s =>
      ((hadHighlights ++ [{| result := r; score := s |}])%list, hadErrors)
  end.
Proof.
  rewrite outcome_eq. unfold classify.
  destruct (Str.truthy (stderr r) || signal_truthy (signal r)); [reflexivity |].
  destruct (exitCode_truthy (exitCode r)); [| reflexivity].
  now destruct (exitCode_is_not_1 (exitCode r)).
Qed.

Lemma fold_classify (results : list ProjectResult) :
  forall hadHighlights hadErrors,
    fold_left classify results (hadHighlights, hadErrors) =
    ((hadHighlights ++ highlights_of results)%list,
     (hadErrors ++ errors_of results)%list).
Proof.
  induction results as [| r results IH]; intros hh he.
  - cbn. now rewrite !app_nil_r.
  - cbn [fold_left]. rewrite classify_outcome.
    unfold highlights_of, errors_of. cbn [flat_map filter].
    destruct (outcome r); rewrite IH; cbn;
      now rewrite <- ?app_assoc.
Qed.

Lemma highlights_scored (results : list ProjectResult) :
  Forall scored (highlights_of results).
Proof.
  induction results as [| r results IH]; cbn; [constructor |].
  pose proof (outcome_eq r) as E.
  destruct (outcome r) as [| | s]; cbn; try assumption.
  constructor; [| assumption]. unfold scored. cbn.
  destruct (_ || _); [discriminate |].
  destruct (exitCode_truthy _); [now destruct (exitCode_is_not_1 _) |].
  injection E as ->.
  destruct (match_marker _); [apply JSFacts.to_number_is_score | cbn; lia].
Qed.

End ClassifyFacts.

Module ClassifyRules.
Import StrFacts MarkerFacts ClassifyFacts.

Lemma outcome_follows_rules (r : ProjectResult) : Classifies r (outcome r).
Proof.
  rewrite outcome_eq.
  destruct (Str.truthy (stderr r)) eqn:He; cbn [orb].
  { apply Rule1_stderr_or_signal. left. now apply truthy_true. }
  apply truthy_false in He.
  destruct (signal r) as [s |] eqn:Hs; cbn [signal_truthy].
  { apply Rule1_stderr_or_signal. right. congruence. }
  assert (Hhl : exitCode r = Some 0%Z \/ exitCode r = None ->
                Classifies r (IsHighlight match match_marker (stdout r) with
                                          | Some digits => JS.to_number digits
                                          | None => JS.Fin 0
                                          end)).
  { intros Hc. destruct (match_marker (stdout r)) as [d |] eqn:Hm.
    - apply Rule4_marker; auto. now apply match_marker_first.
    - apply Rule4_no_marker; auto. now apply match_marker_none. }
  destruct (exitCode r) as [code |] eqn:Hc; cbn; [| auto].
  destruct (Z.eqb_spec code 0) as [-> | H0]; cbn; [auto |].
  destruct (Z.eqb_spec code 1) as [-> | H1]; cbn.
  - now apply Rule3_nothing_code.
  - now apply Rule2_other_exit_code with code.
Qed.

Lemma rules_determine_outcome (r : ProjectResult) (k : Outcome) :
  Classifies r k -> k = outcome r.
Proof.
  rewrite outcome_eq.
  intros [ [He | Hs] | code He Hs Hc H0 H1 | He Hs Hc | d He Hs Hc Hm | He Hs Hc Hm ].
  - apply truthy_true in He. now rewrite He.
  - destruct (signal r); [| congruence]. cbn. now rewrite orb_true_r.
  - rewrite He, Hs, Hc. cbn.
    apply Z.eqb_neq in H0, H1. now rewrite H0, H1.
  - now rewrite He, Hs, Hc.
  - apply match_marker_first in Hm. rewrite He, Hs, Hm.
    now destruct Hc as [-> | ->].
  - apply match_marker_none in Hm. rewrite He, Hs, Hm.
    now destruct Hc as [-> | ->].
Qed.

End ClassifyRules.

(** ** The executor *)

Module ExecFacts.

Lemma isFile_eq (h : Host) (path : string) :
  isFile h path =
  Resolved match stat h path with
           | Resolved stats => stats_isFile stats
           | Rejected _ => false
           end.
Proof. unfold isFile. now destruct (stat h path). Qed.

Lemma analyzeProject_eq (h : Host) (p : Project) :
  analyzeProject h p = Resolved (project_result h p).
Proof.
  unfold analyzeProject, project_result, analyzer_arguments,
    types_file_exists, pushCommandLineOptions.
  rewrite isFile_eq. cbn [Promise_.bind].
  now destruct (stat h (typesPath p)) as [[[]] |].
Qed.

(** Every project is analyzed once, and the results come in the order
    of the projects. *)
Lemma all_results (h : Host) (projects : list Project) :
  Promise_.all (map (analyzeProject h) projects)
  = Resolved (map (project_result h) projects).
Proof.
  induction projects as [| p projects IH]; cbn; [reflexivity |].
  now rewrite analyzeProject_eq, IH.
Qed.

End ExecFacts.

(** ** The reporter *)

Module ReportFacts.
Import Report.

Lemma wrote_nil (c : Console) : wrote c [] = c.
Proof. destruct c. unfold wrote. cbn. now rewrite app_nil_r. Qed.

Lemma wrote_wrote (c : Console) (l1 l2 : list string) :
  wrote (wrote c l1) l2 = wrote c (l1 ++ l2).
Proof. unfold wrote. cbn. now rewrite app_assoc. Qed.

Lemma separate_eq (first : bool) (c : Console) :
  separate first c = (wrote c (if first then [] else [""]), Resolved false).
Proof.
  unfold separate, bind, when, ret, console_log.
  destruct first; cbn; [now rewrite wrote_nil | reflexivity].
Qed.

Lemma printHighlight_eq (n : nat) (first : bool) (hl : Highlight) (c : Console) :
  printHighlight n first hl c
  = (wrote c ((if first then [] else [""]) ++ highlight_entry n hl), Resolved false).
Proof.
  unfold printHighlight, bind. rewrite separate_eq.
  unfold highlight_entry, has_label, when, ret, console_log.
  destruct ((1 <? n)%nat || _); cbn; unfold wrote; cbn;
    now rewrite <- ?app_assoc.
Qed.

Lemma printError_eq (first : bool) (r : ProjectResult) (c : Console) :
  printError first r c
  = (wrote c ((if first then [] else [""]) ++ error_entry r), Resolved false).
Proof.
  unfold printError, bind. rewrite separate_eq.
  unfold error_entry, error_detail, ret, console_log.
  destruct (Str.truthy (stderr r)).
  - unfold wrote. cbn. now rewrite <- !app_assoc.
  - destruct (exitCode_truthy (exitCode r)).
    + destruct (exitCode r); unfold wrote; cbn; now rewrite <- !app_assoc.
    + destruct (signal r); unfold wrote; cbn; now rewrite <- !app_assoc.
Qed.

(** A printing loop writes its blocks with the separators between them
    and leaves [first] set only if nothing at all was printed. *)
Lemma for_of_blocks {A : Type} (body : bool -> A -> IO bool)
      (block : A -> list string) :
  (forall first a c,
      body first a c
      = (wrote c ((if first then [] else [""]) ++ block a), Resolved false)) ->
  forall l first c,
    for_of l body first c
    = (wrote c (render_from first (map block l)),
       Resolved (first && match l with [] => true | _ => false end)).
Proof.
  intros Hbody. induction l as [| a l IH]; intros first c.
  - cbn. now rewrite wrote_nil, andb_true_r.
  - cbn [for_of]. unfold bind. rewrite Hbody, IH, wrote_wrote.
    cbn. now rewrite andb_false_r, <- app_assoc.
Qed.

Lemma render_from_app (first : bool) (b1 b2 : list (list string)) :
  render_from first (b1 ++ b2)
  = (render_from first b1
     ++ render_from (first && match b1 with [] => true | _ => false end) b2)%list.
Proof.
  revert first. induction b1 as [| b b1 IH]; intros first; cbn.
  - now rewrite andb_true_r.
  - rewrite IH, andb_false_r. cbn. now rewrite <- !app_assoc.
Qed.

End ReportFacts.

(** ** [analyzeProjects] as a whole *)

Module AnalyzeFacts.
Import Report ReportFacts ClassifyFacts ExecFacts.

Lemma errors_exist (results : list ProjectResult) :
  (0 <? List.length (errors_of results))%nat
  = existsb is_error (map outcome results).
Proof.
  induction results as [| r results IH]; cbn; [reflexivity |].
  destruct (is_error (outcome r)); cbn; [reflexivity | exact IH].
Qed.

Lemma highlights_exist (results : list ProjectResult) :
  (0 <? List.length (highlights_of results))%nat
  = existsb is_highlight (map outcome results).
Proof.
  induction results as [| r results IH]; cbn; [reflexivity |].
  destruct (outcome r); cbn; auto.
Qed.

Lemma map_is_nil {A B : Type} (f : A -> B) (l : list A) :
  match map f l with [] => true | _ :: _ => false end
  = match l with [] => true | _ :: _ => false end.
Proof. now destruct l. Qed.

(** What [analyzeProjects] prints and returns, in terms of the results
    of its projects. *)
Lemma analyzeProjects_eq (h : Host) (projects : list Project) (c : Console) :
  analyzeProjects h projects c =
  let results := map (project_result h) projects in
  let highlights := Array_sort (compareHighlights h) (highlights_of results) in
  (wrote c (render (blocks (List.length projects) highlights (errors_of results))),
   Resolved (status_of (map outcome results))).
Proof.
  cbv zeta. unfold analyzeProjects, bind at 1, await.
  rewrite all_results, fold_classify. cbn [app].
  set (results := map (project_result h) projects).
  set (hs := Array_sort (compareHighlights h) (highlights_of results)).
  set (n := List.length projects).
  unfold bind.
  rewrite (for_of_blocks (printHighlight n) (highlight_entry n) (printHighlight_eq n)).
  rewrite (for_of_blocks printError error_entry printError_eq).
  rewrite wrote_wrote.
  unfold render, blocks, summary, status_of.
  rewrite !render_from_app, !andb_true_l.
  assert (Hlen : List.length hs = List.length (highlights_of results))
    by apply Array_sort_length.
  rewrite <- errors_exist, <- highlights_exist, <- Hlen, !map_is_nil.
  destruct (List.length hs + List.length (errors_of results) <? n)%nat; cbn [when].
  - unfold bind. rewrite separate_eq. unfold console_log, ret, wrote.
    cbn [logged errors render_from]. rewrite <- !app_assoc, !app_nil_r.
    reflexivity.
  - unfold ret. cbn [render_from]. now rewrite !app_nil_r.
Qed.

End AnalyzeFacts.

(** ** Paths *)

Module PathFacts.
Import Path StrFacts.

Lemma split_not_nil (s : string) : split s <> [].
Proof.
  induction s as [| c s IH]; cbn; [discriminate |].
  destruct (is_sep c); [discriminate |]. now destruct (split s).
Qed.

(** Splitting distributes over a separator. *)
Lemma split_app_sep (a b : string) :
  split (a ++ String "/" b) = (split a ++ split b)%list.
Proof.
  induction a as [| c a IH]; cbn [append split].
  - reflexivity.
  - rewrite IH. destruct (is_sep c); [reflexivity |].
    pose proof (split_not_nil a). now destruct (split a).
Qed.

Lemma split_no_sep (s : string) : no_sep s -> split s = [s].
Proof.
  unfold no_sep. induction s as [| c s IH]; cbn; [reflexivity |].
  intros H. apply andb_true_iff in H as [Hc Hs].
  apply negb_true_iff in Hc. rewrite Hc, IH by assumption. reflexivity.
Qed.

Lemma forallb_of_chars (f : ascii -> bool) (l : list ascii) :
  Str.forallb f (Str.of_chars l) = List.forallb f l.
Proof.
  unfold Str.of_chars.
  induction l as [| c l IH]; cbn; [reflexivity | now rewrite IH].
Qed.

Lemma take_while_all (f : ascii -> bool) (l : list ascii) :
  List.forallb f (take_while f l) = true.
Proof.
  induction l as [| c l IH]; cbn; [reflexivity |].
  destruct (f c) eqn:Hc; cbn; [now rewrite Hc | reflexivity].
Qed.

(** A base name holds no separator. *)
Lemma basename_no_sep (p : string) : no_sep (basename p).
Proof.
  unfold no_sep, basename. rewrite forallb_of_chars.
  apply forallb_forall. intros c Hc. apply in_rev in Hc.
  revert c Hc. apply forallb_forall, take_while_all.
Qed.

Lemma resolve_loop_cons (p : string) (rest : list string) (acc : string) :
  resolve_loop (p :: rest) acc =
  if (p =? "")%string then resolve_loop rest acc
  else if is_absolute p then (p ++ "/" ++ acc, true)
       else resolve_loop rest (p ++ "/" ++ acc).
Proof. reflexivity. Qed.

Lemma resolve_loop_acc (l : list string) (acc : string) :
  resolve_loop l acc
  = (fst (resolve_loop l "") ++ acc, snd (resolve_loop l "")).
Proof.
  revert acc. induction l as [| p l IH]; intros acc; cbn; [reflexivity |].
  destruct (p =? "")%string; [apply IH |].
  destruct (is_absolute p); cbn.
  - now rewrite append_assoc.
  - rewrite IH, (IH (p ++ "/")). cbn. now rewrite !append_assoc.
Qed.

(** With an absolute working directory the path built for the target
    directory is absolute and ends with a separator. *)
Lemma resolve_loop_dir (cwd dir : string) :
  is_absolute cwd = true ->
  exists q, resolve_loop [dir; cwd] "" = (q ++ "/", true).
Proof.
  intros Hc. cbn.
  assert (Hne : (cwd =? "")%string = false) by now destruct cwd.
  destruct (dir =? "")%string.
  - rewrite Hne, Hc. now exists cwd.
  - destruct (is_absolute dir); [now exists dir |].
    rewrite Hne, Hc. exists (cwd ++ "/" ++ dir). now rewrite !append_assoc.
Qed.

Lemma normalize_step_nonempty (allow : bool) (res : list string) (seg : string) :
  nonempty_segments res -> nonempty_segments (normalize_step allow res seg).
Proof.
  unfold normalize_step, nonempty_segments. intros Hres.
  destruct (String.eqb_spec seg "") as [-> | Hne]; cbn; [assumption |].
  destruct (seg =? ".")%string; cbn; [assumption |].
  destruct (seg =? "..")%string.
  - destruct res as [| top res].
    + destruct allow; repeat constructor. discriminate.
    + inversion Hres; subst.
      destruct (top =? "..")%string; [| assumption].
      destruct allow; [constructor; [discriminate | assumption] | assumption].
  - now constructor.
Qed.

Lemma fold_normalize_nonempty (allow : bool) (segs res : list string) :
  nonempty_segments res ->
  nonempty_segments (fold_left (normalize_step allow) segs res).
Proof.
  revert res. induction segs as [| s segs IH]; intros res Hres; cbn;
    auto using normalize_step_nonempty.
Qed.

Lemma join_snoc (sep : string) (l : list string) (x : string) :
  l <> [] -> Str.join sep (l ++ [x]) = Str.join sep l ++ sep ++ x.
Proof.
  induction l as [| a l IH]; [congruence |]. intros _.
  destruct l as [| b l]; [reflexivity |].
  change (Str.join sep ((a :: b :: l) ++ [x]))
    with (a ++ sep ++ Str.join sep ((b :: l) ++ [x])).
  rewrite IH by discriminate.
  change (Str.join sep (a :: b :: l)) with (a ++ sep ++ Str.join sep (b :: l)).
  now rewrite !append_assoc.
Qed.

Lemma join_nonempty (sep : string) (l : list string) :
  l <> [] -> nonempty_segments l -> Str.join sep l <> "".
Proof.
  destruct l as [| a l]; [congruence |]. intros _ H. inversion H; subst.
  destruct a; [congruence |]. now destruct l.
Qed.

Lemma fold_left_snoc {A B : Type} (f : A -> B -> A) (l : list B) (x : B) (a : A) :
  fold_left f (l ++ [x]) a = f (fold_left f l a) x.
Proof. now rewrite fold_left_app. Qed.

(** Resolving a base name against the target directory gives the
    directory itself for an empty or one-dot name, and otherwise, unless
    the name is two dots, the directory's path extended by the name. *)
Lemma resolve_base (cwd dir base : string) :
  is_absolute cwd = true -> no_sep base -> base <> ".." ->
  resolve cwd [dir; base] = resolve cwd [dir]
  \/ (base <> ""
      /\ resolve cwd [dir; base]
         = (if (resolve cwd [dir] =? "/")%string then "/"
            else resolve cwd [dir] ++ "/") ++ base).
Proof.
  intros Hcwd Hbase Hdots. unfold resolve. cbn [rev app].
  destruct (resolve_loop_dir cwd dir Hcwd) as [q Hq].
  rewrite (resolve_loop_cons base [dir; cwd]).
  destruct (String.eqb_spec base "") as [-> | Hne]; [now left |].
  assert (Hrel : is_absolute base = false).
  { destruct base as [| c base]; [reflexivity |]. cbn in Hbase |- *.
    apply andb_true_iff in Hbase as [Hc _]. now apply negb_true_iff. }
  rewrite Hrel, resolve_loop_acc, Hq. cbn [fst snd negb].
  unfold normalizeString, normalize_segments.
  rewrite append_assoc. cbn [append].
  rewrite !split_app_sep, (split_no_sep base Hbase). cbn [split].
  rewrite app_assoc, !fold_left_snoc.
  set (S := fold_left (normalize_step false) (split q) []).
  assert (HS : nonempty_segments S)
    by (apply fold_normalize_nonempty; constructor).
  assert (Hskip : forall res, normalize_step false res "" = res) by reflexivity.
  rewrite !Hskip.
  destruct (String.eqb_spec base ".") as [-> | Hdot]; [now left |].
  right. split; [assumption |].
  assert (Hstep : normalize_step false S base = base :: S).
  { unfold normalize_step.
    apply String.eqb_neq in Hne, Hdot, Hdots. now rewrite Hne, Hdot, Hdots. }
  rewrite Hstep. cbn [rev].
  destruct (rev S) as [| s0 l0] eqn:ES.
  - reflexivity.
  - assert (Hj : Str.join "/" (s0 :: l0) <> "").
    { apply join_nonempty; [discriminate |].
      rewrite <- ES. now apply Forall_rev. }
    rewrite join_snoc by discriminate.
    destruct (Str.join "/" (s0 :: l0)) as [| c j] eqn:Ej; [congruence |].
    cbn. now rewrite !append_assoc.
Qed.

End PathFacts.

(** ** Discovery *)

Module DiscoverFacts.
Import ExecFacts.

Lemma scanEntry_skip (h : Host) (projects : list Project) (entry : Dirent) :
  is_trace_file entry = false -> scanEntry h projects entry = projects.
Proof.
  unfold is_trace_file, scanEntry.
  destruct (dirent_isFile entry); cbn; [| reflexivity].
  now destruct (match_trace_name (name entry)).
Qed.

Lemma scan_no_match (h : Host) (entries : list Dirent) (projects : list Project) :
  existsb is_trace_file entries = false ->
  fold_left (scanEntry h) entries projects = projects.
Proof.
  revert projects. induction entries as [| e entries IH]; intros projects; cbn.
  - reflexivity.
  - intros H. apply orb_false_iff in H as [He Hrest].
    rewrite scanEntry_skip by assumption. now apply IH.
Qed.

Lemma readLegend_eq (h : Host) (c : Console) :
  readLegend h (legendPath h) c
  = (c, Promise_.then_ (legend_parse h) (map (rerooted h))).
Proof.
  unfold readLegend, legend_parse, bind, await, ret.
  destruct (readFile h (legendPath h)) as [text |]; cbn; [| reflexivity].
  now destruct (JSON_parse h text).
Qed.

(** With no manifest, discovery is the scan. *)
Lemma discover_without_legend (h : Host) (c : Console) :
  legend_exists h = false -> discover h c = scanDirectory h c.
Proof.
  unfold legend_exists, discover, bind, await. fold (legendPath h).
  rewrite isFile_eq. intros ->. reflexivity.
Qed.

(** With a manifest that parses, discovery is its entries, re-rooted. *)
Lemma discover_manifest (h : Host) (entries : list Project) (c : Console) :
  legend_exists h = true -> legend_parse h = Resolved entries ->
  discover h c = (c, Resolved (map (rerooted h) entries)).
Proof.
  unfold legend_exists, discover, bind at 1, await. fold (legendPath h).
  rewrite isFile_eq. intros -> Hp.
  unfold bind, try_catch. rewrite readLegend_eq, Hp. reflexivity.
Qed.

(** With a manifest that cannot be read or parsed, discovery reports
    the error and is the scan. *)
Lemma discover_broken_legend (h : Host) (e : Error) (c : Console) :
  legend_exists h = true -> legend_parse h = Rejected e ->
  discover h c
  = scanDirectory h (complained c ("Error reading legend file: " ++ message e)).
Proof.
  unfold legend_exists, discover, bind at 1, await. fold (legendPath h).
  rewrite isFile_eq. intros -> Hp.
  unfold bind, try_catch. rewrite readLegend_eq, Hp. reflexivity.
Qed.

Lemma scanDirectory_eq (h : Host) (c : Console) :
  scanDirectory h c
  = (c, Promise_.then_ (readdir h (traceDir h))
          (fun entries => fold_left (scanEntry h) entries [])).
Proof.
  unfold scanDirectory, bind, await, ret.
  now destruct (readdir h (traceDir h)).
Qed.

End DiscoverFacts.

(** ** The sample comparison is a total preorder *)

Module SampleFacts.
Import Sample.

Lemma code_unit_compare_total (a b : string) :
  (0 < code_unit_compare a b)%Z -> (code_unit_compare b a <= 0)%Z.
Proof.
  unfold code_unit_compare.
  pose proof (String_as_OT.cmp_antisym b a) as H.
  unfold String_as_OT.cmp in H. rewrite H.
  destruct (String.compare a b); cbn; lia.
Qed.

Lemma code_unit_compare_le (a b : string) :
  (code_unit_compare a b <= 0)%Z <-> a = b \/ String_as_OT.lt a b.
Proof.
  unfold code_unit_compare.
  rewrite <- String_as_OT.cmp_eq, <- String_as_OT.cmp_lt. unfold String_as_OT.cmp.
  destruct (String.compare a b); split; auto; try lia;
    intros [H | H]; discriminate.
Qed.

Lemma code_unit_compare_trans (a b c : string) :
  (code_unit_compare a b <= 0)%Z -> (code_unit_compare b c <= 0)%Z ->
  (code_unit_compare a c <= 0)%Z.
Proof.
  rewrite !code_unit_compare_le. intros [-> | Hab] [-> | Hbc]; auto.
  right. eapply String_as_OT.lt_trans; eassumption.
Qed.

End SampleFacts.

(** ** The sample collation is a total preorder *)

Module CollationFacts.
Import Collation.

Lemma compare_gt (a b : string) : String.compare a b = Gt <-> String_as_OT.lt b a.
Proof.
  rewrite <- String_as_OT.cmp_lt. unfold String_as_OT.cmp.
  pose proof (String_as_OT.cmp_antisym b a) as H. unfold String_as_OT.cmp in H.
  rewrite H. destruct (String.compare a b); cbn; split; congruence.
Qed.

Lemma localeCompare_le (a b : string) :
  (localeCompare a b <= 0)%Z <->
  String_as_OT.lt (fold_case a) (fold_case b)
  \/ (fold_case a = fold_case b /\ (a = b \/ String_as_OT.lt b a)).
Proof.
  unfold localeCompare.
  rewrite <- (String_as_OT.cmp_lt (fold_case a)), <- (String_as_OT.cmp_eq (fold_case a)).
  rewrite <- (compare_gt a b), <- (String_as_OT.cmp_eq a b).
  unfold String_as_OT.cmp.
  destruct (String.compare (fold_case a) (fold_case b));
    destruct (String.compare a b); split; intros H; try lia; auto;
    try (destruct H as [H | [H [H' | H']]]; discriminate).
Qed.

Lemma localeCompare_total (a b : string) :
  (0 < localeCompare a b)%Z -> (localeCompare b a <= 0)%Z.
Proof.
  unfold localeCompare.
  pose proof (String_as_OT.cmp_antisym (fold_case b) (fold_case a)) as Hf.
  pose proof (String_as_OT.cmp_antisym b a) as Ho.
  unfold String_as_OT.cmp in Hf, Ho. rewrite Hf, Ho.
  destruct (String.compare (fold_case a) (fold_case b));
    destruct (String.compare a b); cbn; lia.
Qed.

Lemma localeCompare_trans (a b c : string) :
  (localeCompare a b <= 0)%Z -> (localeCompare b c <= 0)%Z ->
  (localeCompare a c <= 0)%Z.
Proof.
  rewrite !localeCompare_le.
  intros [Hab | [Eab Hab]] [Hbc | [Ebc Hbc]].
  - left. eapply String_as_OT.lt_trans; eassumption.
  - left. now rewrite <- Ebc.
  - left. now rewrite Eab.
  - right. split; [congruence |].
    destruct Hab as [-> | Hab], Hbc as [-> | Hbc]; auto.
    right. eapply String_as_OT.lt_trans; eassumption.
Qed.
End CollationFacts.

(** ** The scenarios of section 8 *)

Module Scenarios.
Import Sample.

(** Two traces, one with a types file: a highlight and a project with
    nothing to report. *)
Example two_projects_one_highlight :
  run scenario_host
  = ({| logged := ["Analyzed trace-a.json"; "Found X (120ms)"; "";
                   "Found nothing in 1 other project(s)"];
        errors := [] |}, 0%Z).
Proof. reflexivity. Qed.

Example analyzer_called_with_and_without_types :
  analyzer_arguments scenario_host project_a
  = ["/data/traces/trace-a.json"; "/data/traces/types-a.json";
     "--force-millis"; "500"; "--skip-millis"; "100"]
  /\ analyzer_arguments scenario_host project_b
     = ["/data/traces/trace-b.json";
        "--force-millis"; "500"; "--skip-millis"; "100"].
Proof. split; reflexivity. Qed.

(** A single project without a label, whose analyzer writes to its
    standard error. *)
Example single_project_error :
  run single_error_host
  = ({| logged := ["Error analyzing trace-d.json"; "TypeError: boom"];
        errors := [] |}, 2%Z).
Proof. reflexivity. Qed.

(** Two highlights tied at 120 come in the order of their paths, before
    the one at 50; the error follows, then the count of the rest. *)
Example ranked_report :
  run ranking_host
  = ({| logged := ["Analyzed trace-a.json"; "Found X (120ms)"; "";
                   "Analyzed trace-c.json"; "Hot spot (120 ms)"; "";
                   "Analyzed trace-e.json"; "Slow (50ms)"; "";
                   "Error analyzing trace-d.json"; "TypeError: boom"; "";
                   "Found nothing in 1 other project(s)"];
        errors := [] |}, 2%Z).
Proof. reflexivity. Qed.

(** Scores are doubles: [2^53 + 1] is read as [2^53]. *)
Example score_is_a_double :
  match_marker "total (9007199254740993 ms)" = Some "9007199254740993"
  /\ JS.to_number "9007199254740993" = JS.Fin 9007199254740992
  /\ JS.to_number "120" = JS.Fin 120.
Proof. repeat split; reflexivity. Qed.

End Scenarios.

(* ================================================================== *)
(** * The claims *)

(** C1.  The status code that [analyzeProjects] returns is 2 if at least
    one result is classified Error, otherwise 0 if at least one is
    classified Highlight, otherwise 1; the promise always resolves. *)
Theorem status_code_by_precedence (h : Host) (projects : list Project) (c : Console) :
  Promise_.all (map (analyzeProject h) projects)
  = Resolved (map (project_result h) projects)
  /\ snd (analyzeProjects h projects c)
     = Resolved (status_of (map outcome (map (project_result h) projects))).
Proof.
  split; [apply ExecFacts.all_results |].
  now rewrite AnalyzeFacts.analyzeProjects_eq.
Qed.

(** C2.  Every result gets exactly one kind, the one the priority rules
    of section 4.3 give it, and [classify] files the result accordingly:
    onto [hadErrors] for an Error, nowhere for NothingFound, onto
    [hadHighlights] with its score for a Highlight.  The score is the
    Number read from the digits of the first marker, or 0 without one;
    that Number is the value of the digits whenever it is below [2^53]. *)
Theorem classification_by_priority_rules (r : ProjectResult) :
  Classifies r (outcome r)
  /\ (forall k, Classifies r k -> k = outcome r)
  /\ (forall hadHighlights hadErrors,
         classify (hadHighlights, hadErrors) r =
         match outcome r with
         | IsError => (hadHighlights, hadErrors ++ [r])%list
         | NothingFound => (hadHighlights, hadErrors)
         | IsHighlight s =>
             ((hadHighlights ++ [{| result := r; score := s |}])%list, hadErrors)
         end)
  /\ (forall d, (JS.decimal_value d < 2 ^ 53)%N ->
                JS.to_number d = JS.Fin (Z.of_N (JS.decimal_value d))).
Proof.
  split; [apply ClassifyRules.outcome_follows_rules |].
  split; [apply ClassifyRules.rules_determine_outcome |].
  split; [intros; apply ClassifyFacts.classify_outcome |].
  apply JSFacts.to_number_exact.
Qed.

(** C3, as stated, fails: two highlights tied at 120 whose trace paths
    differ in one letter, [a] against [B], are listed [a] first, as the
    collation of [localeCompare] has them, while the lexicographic order
    of the paths puts [B] first. *)
Lemma ties_follow_collation_not_code_units :
  run RevSamples.collating_host
  = ({| logged := ["Analyzed trace-a.json"; "Found X (120ms)"; "";
                   "Analyzed trace-B.json"; "Found X (120ms)"];
        errors := [] |}, 0%Z)
  /\ Sample.code_unit_compare "/data/traces/trace-B.json" "/data/traces/trace-a.json"
     = (-1)%Z
  /\ ~ report_in_lexicographic_order RevSamples.collating_host
        RevSamples.collating_projects empty_console.
Proof.
  split; [reflexivity |]. split; [reflexivity |].
  intros (hl & Hperm & Hsorted & Hlog).
  vm_compute in Hperm.
  apply Permutation_length_2_inv in Hperm. destruct Hperm as [-> | ->].
  - vm_compute in Hlog. discriminate Hlog.
  - apply StronglySorted_inv in Hsorted as [_ Hfirst].
    apply Forall_inv in Hfirst. destruct Hfirst as [Hlt | [_ Hle]].
    + vm_compute in Hlt. discriminate Hlt.
    + vm_compute in Hle. exact (Hle eq_refl).
Qed.

(** C3, amended.  Whenever [localeCompare] is a total preorder, the report lists
    every Highlight entry, ordered by descending score with ties broken
    by ascending [localeCompare] of the trace paths, and after them every
    Error entry in the order the errors were encountered. *)
Theorem report_order (h : Host)
        (localeCompare_total :
           forall a b, (0 < localeCompare h a b)%Z -> (localeCompare h b a <= 0)%Z)
        (localeCompare_trans :
           forall a b c, (localeCompare h a b <= 0)%Z -> (localeCompare h b c <= 0)%Z ->
                         (localeCompare h a c <= 0)%Z)
        (projects : list Project) (c : Console) :
  let results := map (project_result h) projects in
  exists highlights,
    Permutation (highlights_of results) highlights
    /\ StronglySorted (ranks_before h) highlights
    /\ logged (fst (analyzeProjects h projects c))
       = (logged c
          ++ Report.render
               (map (Report.highlight_entry (List.length projects)) highlights
                ++ map Report.error_entry (errors_of results)
                ++ Report.summary (List.length projects)
                     (List.length highlights + List.length (errors_of results))))%list.
Proof.
  intros results.
  exists (Array_sort (compareHighlights h) (highlights_of results)).
  destruct (RankFacts.sort_highlights h localeCompare_total localeCompare_trans
              (highlights_of results) (ClassifyFacts.highlights_scored results))
    as [Hperm Hsorted].
  repeat split; try assumption.
  now rewrite AnalyzeFacts.analyzeProjects_eq.
Qed.

Lemma report_order_witness :
  let results := map (project_result Sample.ranking_host) Sample.ranking_projects in
  exists highlights,
    Permutation (highlights_of results) highlights
    /\ StronglySorted (ranks_before Sample.ranking_host) highlights
    /\ logged (fst (analyzeProjects Sample.ranking_host
                      Sample.ranking_projects empty_console))
       = (logged empty_console
          ++ Report.render
               (map (Report.highlight_entry (List.length Sample.ranking_projects))
                    highlights
                ++ map Report.error_entry (errors_of results)
                ++ Report.summary (List.length Sample.ranking_projects)
                     (List.length highlights + List.length (errors_of results))))%list.
Proof.
  exact (report_order Sample.ranking_host
           SampleFacts.code_unit_compare_total
           SampleFacts.code_unit_compare_trans
           Sample.ranking_projects empty_console).
Defined.

(** C4, as stated, fails: in an empty directory the run prints nothing
    at all, where the claim has it print one line. *)
Lemma empty_directory_prints_no_line :
  run Sample.empty_dir_host = (empty_console, 1%Z)
  /\ ~ prints_one_line_and_exits_1 Sample.empty_dir_host.
Proof.
  assert (E : run Sample.empty_dir_host = (empty_console, 1%Z)) by reflexivity.
  split; [exact E |].
  intros [line [Hline _]]. rewrite E in Hline. discriminate.
Qed.

(** C4, amended.  For a directory with no manifest and no plain file
    named like a trace, the run prints nothing, on either stream, and
    exits with status 1. *)
Theorem no_trace_files_nothing_printed (h : Host) (entries : list Dirent) :
  legend_exists h = false ->
  readdir h (traceDir h) = Resolved entries ->
  existsb is_trace_file entries = false ->
  run h = (empty_console, 1%Z).
Proof.
  intros Hlegend Hdir Hnone. unfold run, main, bind.
  rewrite DiscoverFacts.discover_without_legend by assumption.
  rewrite DiscoverFacts.scanDirectory_eq, Hdir. cbn [Promise_.then_].
  rewrite DiscoverFacts.scan_no_match by assumption.
  reflexivity.
Qed.

Lemma no_trace_files_nothing_printed_witness :
  run Sample.no_trace_host = (empty_console, 1%Z).
Proof.
  apply (no_trace_files_nothing_printed Sample.no_trace_host Sample.no_trace_entries);
    reflexivity.
Defined.

Lemma inside_child (dir base : string) :
  base <> "" ->
  Path.inside dir ((if (dir =? "/")%string then "/" else dir ++ "/") ++ base) = true.
Proof.
  intros Hne. unfold Path.inside.
  set (pre := if (dir =? "/")%string then "/" else dir ++ "/").
  assert (E : Str.strip_prefix pre (pre ++ base) = Some base)
    by now apply StrFacts.strip_prefix_spec.
  rewrite E. now apply StrFacts.truthy_true.
Qed.

(** A name re-rooted by its base name stays within the target directory,
    unless the base name is two dots. *)
Lemma rerooted_within (h : Host) (name : string) :
  Path.is_absolute (cwd h) = true ->
  Path.basename name <> ".." ->
  within (resolvedTraceDir h)
         (Path.resolve (cwd h) [traceDir h; Path.basename name]).
Proof.
  intros Hcwd Hdots. unfold within, resolvedTraceDir.
  destruct (PathFacts.resolve_base (cwd h) (traceDir h) (Path.basename name)
              Hcwd (PathFacts.basename_no_sep name) Hdots) as [-> | [Hne ->]].
  - now left.
  - right. now apply inside_child.
Qed.

(** C5, as stated, fails: a manifest entry whose trace-file name is
    [../..] has base name [..], and its resolved path is the parent of
    the target directory. *)
Lemma traversal_entry_escapes :
  discover Sample.traversal_host empty_console
  = (empty_console,
     Resolved [{| configFilePath := Some "/src/tsconfig.json";
                  tracePath := "/data";
                  typesPath := "/data/traces/evil.json" |}])
  /\ resolvedTraceDir Sample.traversal_host = "/data/traces"
  /\ ~ (forall p, In p (map (rerooted Sample.traversal_host) Sample.traversal_manifest) ->
                  stays_within Sample.traversal_host p).
Proof.
  split; [reflexivity |]. split; [reflexivity |].
  intros H. destruct (H _ (or_introl eq_refl)) as [[Heq | Hin] _].
  - discriminate Heq.
  - discriminate Hin.
Qed.

(** C5, amended.  Every manifest entry is resolved as [path.resolve] of
    the target directory and the base name of the file name it gives.
    With an absolute working directory, and unless that base name is
    [..], the resolved path is the target directory or lies inside it. *)
Theorem manifest_entries_rerooted (h : Host) (entries : list Project) (c : Console) :
  Path.is_absolute (cwd h) = true ->
  legend_exists h = true ->
  legend_parse h = Resolved entries ->
  discover h c = (c, Resolved (map (rerooted h) entries))
  /\ forall entry, In entry entries ->
       tracePath (rerooted h entry)
       = Path.resolve (cwd h) [traceDir h; Path.basename (tracePath entry)]
       /\ typesPath (rerooted h entry)
          = Path.resolve (cwd h) [traceDir h; Path.basename (typesPath entry)]
       /\ (Path.basename (tracePath entry) <> ".." ->
           within (resolvedTraceDir h) (tracePath (rerooted h entry)))
       /\ (Path.basename (typesPath entry) <> ".." ->
           within (resolvedTraceDir h) (typesPath (rerooted h entry))).
Proof.
  intros Hcwd Hlegend Hparse.
  split; [now apply DiscoverFacts.discover_manifest |].
  intros entry _. repeat split; try reflexivity; intros Hdots;
    now apply rerooted_within.
Qed.

Lemma manifest_entries_rerooted_witness :
  discover Sample.traversal_host empty_console
  = (empty_console, Resolved (map (rerooted Sample.traversal_host)
                                  Sample.traversal_manifest))
  /\ forall entry, In entry Sample.traversal_manifest ->
       tracePath (rerooted Sample.traversal_host entry)
       = Path.resolve (cwd Sample.traversal_host)
           [traceDir Sample.traversal_host; Path.basename (tracePath entry)]
       /\ typesPath (rerooted Sample.traversal_host entry)
          = Path.resolve (cwd Sample.traversal_host)
              [traceDir Sample.traversal_host; Path.basename (typesPath entry)]
       /\ (Path.basename (tracePath entry) <> ".." ->
           within (resolvedTraceDir Sample.traversal_host)
                  (tracePath (rerooted Sample.traversal_host entry)))
       /\ (Path.basename (typesPath entry) <> ".." ->
           within (resolvedTraceDir Sample.traversal_host)
                  (typesPath (rerooted Sample.traversal_host entry))).
Proof.
  apply (manifest_entries_rerooted Sample.traversal_host Sample.traversal_manifest
           empty_console); reflexivity.
Defined.

(** C7.  For every project the analyzer is forked with the trace path,
    then the types path if and only if it names a plain file, then the
    forwarded command-line options, in that order; the result is
    assembled from what that child gives. *)
Theorem analyzer_invocation_arguments (h : Host) (p : Project) :
  let args := ([tracePath p]
               ++ (if types_file_exists h p then [typesPath p] else [])
               ++ forwardedOptions h)%list in
  let child := fork h args in
  analyzeProject h p
  = Resolved {| project := p;
                stdout := trim h (child_stdout child);
                stderr := trim h (child_stderr child);
                exitCode := child_code child;
                signal := child_signal child |}.
Proof. apply ExecFacts.analyzeProject_eq. Qed.

(** C8.  The report is made of the entries of the sorted highlights and
    of the errors, printed with the number of projects analyzed.  A
    Highlight entry starts with an [Analyzed ...] line exactly when more
    than one project was analyzed or the project carries a label, and
    otherwise is the analyzer's output alone; an Error entry always starts
    with an [Error analyzing ...] line. *)
Theorem entry_description_prefix (h : Host) (projects : list Project) (c : Console) :
  let results := map (project_result h) projects in
  logged (fst (analyzeProjects h projects c))
  = (logged c
     ++ Report.render
          (Report.blocks (List.length projects)
             (Array_sort (compareHighlights h) (highlights_of results))
             (errors_of results)))%list
  /\ (forall n first hl c0,
         logged (fst (printHighlight n first hl c0))
         = (logged c0
            ++ (if first then [] else [""])
            ++ (if (1 <? n)%nat || Report.has_label (project (result hl))
                then [("Analyzed " ++ getProjectDescription (project (result hl)))%string]
                else [])
            ++ [stdout (result hl)])%list)
  /\ (forall first r c0,
         exists detail,
           logged (fst (printError first r c0))
           = (logged c0
              ++ (if first then [] else [""])
              ++ ("Error analyzing " ++ getProjectDescription (project r))%string
                 :: detail)%list).
Proof.
  split; [now rewrite AnalyzeFacts.analyzeProjects_eq |]. split.
  - intros. rewrite ReportFacts.printHighlight_eq. cbn [fst wrote logged].
    unfold Report.highlight_entry. now destruct (_ || _).
  - intros. exists (Report.error_detail r).
    now rewrite ReportFacts.printError_eq.
Qed.

(** C9.  When the manifest parses to an empty sequence, no project is
    discovered and the directory is not scanned, whatever it holds: the
    run prints nothing and its status is 1. *)
Theorem empty_manifest_is_not_a_fallback (h : Host) (c : Console) :
  legend_exists h = true ->
  legend_parse h = Resolved [] ->
  discover h c = (c, Resolved [])
  /\ main h c = (c, Resolved 1%Z).
Proof.
  intros Hlegend Hparse.
  assert (Hd : discover h c = (c, Resolved []))
    by exact (DiscoverFacts.discover_manifest h [] c Hlegend Hparse).
  split; [exact Hd |].
  unfold main, bind. rewrite Hd, AnalyzeFacts.analyzeProjects_eq.
  cbn. now rewrite ReportFacts.wrote_nil.
Qed.

Lemma empty_manifest_is_not_a_fallback_witness :
  discover Sample.empty_legend_host empty_console = (empty_console, Resolved [])
  /\ main Sample.empty_legend_host empty_console = (empty_console, Resolved 1%Z).
Proof.
  apply (empty_manifest_is_not_a_fallback Sample.empty_legend_host empty_console);
    reflexivity.
Defined.

(** C10.  When [stat] fails on a path, [isFile] resolves to [false]
    instead of rejecting; when it fails on the types path of a project,
    the analysis of the project still resolves, the analyzer having been
    given the trace path and the forwarded options only. *)
Theorem isFile_false_on_stat_failure (h : Host) (p : Project) (e : Error) :
  stat h (typesPath p) = Rejected e ->
  isFile h (typesPath p) = Resolved false
  /\ analyzer_arguments h p = tracePath p :: forwardedOptions h
  /\ analyzeProject h p = Resolved (project_result h p).
Proof.
  intros Hstat. split; [| split].
  - now rewrite ExecFacts.isFile_eq, Hstat.
  - unfold analyzer_arguments, types_file_exists. now rewrite Hstat.
  - apply ExecFacts.analyzeProject_eq.
Qed.

Lemma isFile_false_on_stat_failure_witness :
  isFile Sample.scenario_host (typesPath Sample.project_b) = Resolved false
  /\ analyzer_arguments Sample.scenario_host Sample.project_b
     = tracePath Sample.project_b :: forwardedOptions Sample.scenario_host
  /\ analyzeProject Sample.scenario_host Sample.project_b
     = Resolved (project_result Sample.scenario_host Sample.project_b).
Proof.
  apply (isFile_false_on_stat_failure Sample.scenario_host Sample.project_b
           Sample.enoent).
  reflexivity.
Defined.

(* ================================================================== *)
(** * More of the program *)

(** ** The scan of the directory *)

Module ScanFacts.
Import Str StrFacts.

Lemma chars_app (a b : string) : chars (a ++ b) = (chars a ++ chars b)%list.
Proof. unfold chars. induction a as [| c a IH]; cbn; [reflexivity | now rewrite IH]. Qed.

Lemma of_chars_app (a b : list ascii) :
  of_chars (a ++ b) = of_chars a ++ of_chars b.
Proof. unfold of_chars. induction a as [| c a IH]; cbn; [reflexivity | now rewrite IH]. Qed.

Lemma chars_of_chars (l : list ascii) : chars (of_chars l) = l.
Proof. apply list_ascii_of_string_of_list_ascii. Qed.

Lemma of_chars_chars (s : string) : of_chars (chars s) = s.
Proof. apply string_of_list_ascii_of_string. Qed.

(** [ends_with] tells whether the string is something followed by the
    suffix. *)
Lemma ends_with_spec (suffix s : string) :
  ends_with suffix s = true <-> exists stem, s = stem ++ suffix.
Proof.
  unfold ends_with. rewrite starts_with_spec. split.
  - intros [r Hr]. exists (of_chars (rev (chars r))).
    apply (f_equal chars) in Hr. rewrite chars_app, !chars_of_chars in Hr.
    apply (f_equal (@rev ascii)) in Hr. rewrite rev_app_distr, !rev_involutive in Hr.
    rewrite <- (of_chars_chars s), Hr, of_chars_app, of_chars_chars. reflexivity.
  - intros [stem ->]. exists (of_chars (rev (chars stem))).
    now rewrite chars_app, rev_app_distr, of_chars_app.
Qed.

Lemma match_trace_name_spec (name suffix : string) :
  match_trace_name name = Some suffix <->
  name = "trace" ++ suffix
  /\ (exists stem, suffix = stem ++ ".json")
  /\ one_line suffix.
Proof.
  unfold match_trace_name, one_line. split.
  - destruct (strip_prefix "trace" name) as [rest |] eqn:E; [| discriminate].
    apply strip_prefix_spec in E.
    destruct (ends_with ".json" rest) eqn:Hend; [| discriminate].
    destruct (Str.forallb _ rest) eqn:Hline; [| discriminate].
    intros [= <-]. apply ends_with_spec in Hend. auto.
  - intros (Hname & Hend & Hline).
    apply strip_prefix_spec in Hname. apply ends_with_spec in Hend.
    now rewrite Hname, Hend, Hline.
Qed.

Lemma scanEntry_take (h : Host) (projects : list Project) (entry : Dirent) :
  is_trace_file entry = true ->
  scanEntry h projects entry = (projects ++ [trace_project h entry])%list.
Proof.
  unfold is_trace_file, scanEntry, trace_project, trace_suffix, match_trace_name.
  destruct (dirent_isFile entry); [| discriminate]. cbn [negb andb].
  destruct (strip_prefix "trace" (name entry)) as [rest |]; [| discriminate].
  now destruct (_ && _).
Qed.

Lemma scan_eq (h : Host) (entries : list Dirent) (projects : list Project) :
  fold_left (scanEntry h) entries projects
  = (projects ++ map (trace_project h) (filter is_trace_file entries))%list.
Proof.
  revert projects. induction entries as [| e entries IH]; intros projects; cbn [fold_left filter].
  - cbn. now rewrite app_nil_r.
  - destruct (is_trace_file e) eqn:He.
    + rewrite scanEntry_take, IH by assumption. cbn. now rewrite <- app_assoc.
    + rewrite DiscoverFacts.scanEntry_skip by assumption. apply IH.
Qed.

End ScanFacts.

(** ** Base names of joined and resolved paths *)

Module BaseNameFacts.
Import Path StrFacts PathFacts ScanFacts.

Lemma take_while_app (f : ascii -> bool) (a b : list ascii) :
  List.forallb f a = true ->
  match b with [] => True | c :: _ => f c = false end ->
  take_while f (a ++ b) = a.
Proof.
  intros Ha Hb. induction a as [| c a IH]; cbn.
  - destruct b as [| c b]; [reflexivity |]. cbn. now rewrite Hb.
  - cbn in Ha. apply andb_true_iff in Ha as [Hc Ha]. rewrite Hc. f_equal. auto.
Qed.

Lemma no_sep_chars (s : string) :
  no_sep s -> List.forallb (fun c => negb (is_sep c)) (Str.chars s) = true.
Proof.
  unfold no_sep. intros H. now rewrite <- forallb_of_chars, of_chars_chars.
Qed.

(** The characters of a name without separator, last one first. *)
Lemma rev_chars_name (name : string) :
  name <> "" -> no_sep name ->
  exists c r, rev (Str.chars name) = c :: r
              /\ is_sep c = false
              /\ List.forallb (fun c => negb (is_sep c)) (c :: r) = true.
Proof.
  intros Hne Hns. apply no_sep_chars in Hns.
  assert (Hall : List.forallb (fun c => negb (is_sep c)) (rev (Str.chars name)) = true).
  { apply forallb_forall. intros c Hc. apply in_rev in Hc.
    revert c Hc. now apply forallb_forall. }
  destruct (rev (Str.chars name)) as [| c r] eqn:E.
  - exfalso. apply Hne. apply (f_equal (@rev ascii)) in E.
    rewrite rev_involutive in E. cbn in E.
    rewrite <- (of_chars_chars name), E. reflexivity.
  - exists c, r. repeat split; [| exact Hall].
    cbn in Hall. apply andb_true_iff in Hall as [Hc _]. now apply negb_true_iff.
Qed.

(** The base name of a path that ends with a name after a separator, or
    is that name alone, is the name. *)
Lemma basename_app (pre name : string) :
  name <> "" -> no_sep name ->
  pre = "" \/ (exists q, pre = q ++ "/") ->
  basename (pre ++ name) = name.
Proof.
  intros Hne Hns Hpre.
  destruct (rev_chars_name name Hne Hns) as (c & r & Hrev & Hc & Hall).
  unfold basename. rewrite chars_app, rev_app_distr, Hrev.
  cbn [app drop_while]. rewrite Hc.
  change (c :: (r ++ rev (Str.chars pre))%list)
    with ((c :: r) ++ rev (Str.chars pre))%list.
  rewrite take_while_app.
  - rewrite <- Hrev, rev_involutive. apply of_chars_chars.
  - exact Hall.
  - destruct Hpre as [-> | [q ->]]; [exact I |].
    rewrite chars_app, rev_app_distr. reflexivity.
Qed.

Lemma last_is_sep_app (pre name : string) :
  name <> "" -> no_sep name -> last_is_sep (pre ++ name) = false.
Proof.
  intros Hne Hns.
  destruct (rev_chars_name name Hne Hns) as (c & r & Hrev & Hc & _).
  unfold last_is_sep. now rewrite chars_app, rev_app_distr, Hrev.
Qed.

Lemma length_app (a b : string) :
  String.length (a ++ b) = (String.length a + String.length b)%nat.
Proof. induction a as [| c a IH]; cbn; [reflexivity | now rewrite IH]. Qed.

Lemma regular_step (allow : bool) (res : list string) (name : string) :
  regular_name name -> normalize_step allow res name = name :: res.
Proof.
  intros (H0 & H1 & H2). unfold normalize_step.
  apply String.eqb_neq in H0, H1, H2. now rewrite H0, H1, H2.
Qed.

Lemma join_ends_with (l : list string) (name : string) :
  exists pre, Str.join "/" (l ++ [name]) = pre ++ name
              /\ (pre = "" \/ exists q, pre = q ++ "/").
Proof.
  destruct l as [| a l].
  - exists "". auto.
  - exists (Str.join "/" (a :: l) ++ "/"). split; [| eauto].
    rewrite join_snoc by discriminate. now rewrite append_assoc.
Qed.

Lemma is_absolute_no_sep (name : string) : no_sep name -> is_absolute name = false.
Proof.
  destruct name as [| c name]; [reflexivity |]. unfold no_sep. cbn.
  intros H. apply andb_true_iff in H as [Hc _]. now apply negb_true_iff.
Qed.

(** Normalizing a path that ends with a regular name keeps the name last. *)
Lemma normalizeString_name (allow : bool) (dir name : string) :
  regular_name name -> no_sep name ->
  exists pre, normalizeString (dir ++ String "/" name) allow = pre ++ name
              /\ (pre = "" \/ exists q, pre = q ++ "/").
Proof.
  intros Hreg Hns. unfold normalizeString, normalize_segments.
  rewrite split_app_sep, (split_no_sep name Hns), fold_left_snoc.
  rewrite regular_step by assumption. cbn [rev]. apply join_ends_with.
Qed.

(** [path.join(dir, name)] ends with the name. *)
Lemma join_name (dir name : string) :
  regular_name name -> no_sep name ->
  exists pre, Path.join [dir; name] = pre ++ name
              /\ (pre = "" \/ exists q, pre = q ++ "/").
Proof.
  intros Hreg Hns. pose proof Hreg as (Hne & _ & _).
  assert (Hname : Str.truthy name = true) by now apply truthy_true.
  assert (Hnn : forall p, (p ++ name =? "")%string = false).
  { intros p. apply String.eqb_neq. destruct p, name; cbn; congruence. }
  unfold Path.join. cbn [filter]. rewrite Hname.
  destruct dir as [| d dir]; cbn [Str.truthy Str.join].
  - unfold normalize.
    assert (E : (name =? "")%string = false) by now apply String.eqb_neq.
    rewrite E, is_absolute_no_sep by assumption. cbn [negb].
    assert (En : normalizeString name true = name).
    { unfold normalizeString, normalize_segments.
      rewrite (split_no_sep name Hns). cbn [fold_left].
      now rewrite regular_step. }
    rewrite En, E.
    change name with ("" ++ name) at 1. rewrite last_is_sep_app by assumption.
    exists "". auto.
  - set (dir' := String d dir).
    change (dir' ++ "/" ++ name) with (dir' ++ String "/" name).
    unfold normalize.
    assert (E : (dir' ++ String "/" name =? "")%string = false) by reflexivity.
    rewrite E.
    assert (Hassoc : (dir' ++ "/") ++ name = dir' ++ String "/" name)
      by now rewrite append_assoc.
    assert (Hlast : last_is_sep (dir' ++ String "/" name) = false)
      by (rewrite <- Hassoc; now apply last_is_sep_app).
    rewrite Hlast.
    destruct (normalizeString_name (negb (is_absolute (dir' ++ String "/" name)))
                dir' name Hreg Hns) as (pre & -> & Hpre).
    rewrite Hnn.
    destruct (is_absolute (dir' ++ String "/" name)).
    + exists ("/" ++ pre). split; [reflexivity |].
      right. destruct Hpre as [-> | [q ->]]; [now exists "" | now exists ("/" ++ q)].
    + now exists pre.
Qed.

(** [path.resolve(dir, name)] ends with a separator and the name. *)
Lemma resolve_name (cwd dir name : string) :
  is_absolute cwd = true -> regular_name name -> no_sep name ->
  exists q, resolve cwd [dir; name] = (q ++ "/") ++ name.
Proof.
  intros Hcwd (Hne & Hdot & Hdots) Hns.
  destruct (resolve_base cwd dir name Hcwd Hns Hdots) as [Hsame | [_ ->]].
  - exfalso. revert Hsame. unfold resolve. cbn [rev app].
    destruct (resolve_loop_dir cwd dir Hcwd) as [q Hq].
    rewrite (resolve_loop_cons name [dir; cwd]).
    apply String.eqb_neq in Hne. rewrite Hne, is_absolute_no_sep by assumption.
    rewrite resolve_loop_acc, Hq. cbn [fst snd negb].
    unfold normalizeString, normalize_segments.
    rewrite append_assoc. cbn [append].
    rewrite !split_app_sep, (split_no_sep name Hns). cbn [split].
    rewrite app_assoc, !fold_left_snoc.
    set (S := fold_left (normalize_step false) (split q) []).
    assert (Hskip : forall res, normalize_step false res "" = res) by reflexivity.
    rewrite !Hskip, regular_step. 2:{ apply String.eqb_neq in Hne. now repeat split. }
    cbn [rev]. intros Heq. injection Heq as Heq.
    destruct (rev S) as [| s0 l0].
    + cbn in Heq. apply String.eqb_neq in Hne. congruence.
    + rewrite join_snoc in Heq by discriminate.
      apply (f_equal String.length) in Heq.
      rewrite !length_app in Heq. cbn in Heq. lia.
  - destruct (resolve cwd [dir] =? "/")%string.
    + now exists "".
    + now exists (resolve cwd [dir]).
Qed.

End BaseNameFacts.

(** ** Counting the results *)

Module CountFacts.
Import Report ClassifyFacts AnalyzeFacts.

(** Every result is a highlight, an error or nothing, and only one of them. *)
Lemma results_partition (results : list ProjectResult) :
  List.length results
  = (List.length (highlights_of results) + List.length (errors_of results)
     + nothing_count results)%nat.
Proof.
  unfold nothing_count, highlights_of, errors_of.
  induction results as [| r results IH]; cbn [flat_map filter]; [reflexivity |].
  destruct (outcome r); cbn [is_error is_nothing app List.length]; lia.
Qed.

Lemma summary_is_count (n interesting nothing : nat) :
  n = (interesting + nothing)%nat ->
  summary n interesting = count_line nothing interesting.
Proof.
  intros ->. unfold summary, count_line.
  destruct nothing as [| k].
  - cbn [Nat.eqb]. rewrite Nat.add_0_r, Nat.ltb_irrefl. reflexivity.
  - cbn [Nat.eqb].
    assert (E : (interesting <? interesting + S k)%nat = true)
      by (apply Nat.ltb_lt; lia).
    rewrite E. repeat f_equal. lia.
Qed.

(** The report, with the trailing line counting the unprinted results. *)
Lemma report_with_count (h : Host) (projects : list Project) (c : Console) :
  let results := map (project_result h) projects in
  let highlights := Array_sort (compareHighlights h) (highlights_of results) in
  analyzeProjects h projects c
  = (wrote c (render (map (highlight_entry (List.length projects)) highlights
                      ++ map error_entry (errors_of results)
                      ++ count_line (nothing_count results)
                           (List.length highlights + List.length (errors_of results)))),
     Resolved (status_of (map outcome results))).
Proof.
  cbv zeta. rewrite analyzeProjects_eq. cbv zeta. unfold blocks.
  rewrite (summary_is_count _ _ (nothing_count (map (project_result h) projects))).
  - reflexivity.
  - rewrite Array_sort_length, <- results_partition. now rewrite length_map.
Qed.

Lemma status_in_range (kinds : list Outcome) : is_exit_status (status_of kinds).
Proof.
  unfold status_of, is_exit_status.
  destruct (existsb is_error kinds); [auto |].
  destruct (existsb is_highlight kinds); auto.
Qed.

Lemma all_nothing (results : list ProjectResult) :
  nothing_count results = List.length results ->
  highlights_of results = [] /\ errors_of results = []
  /\ status_of (map outcome results) = 1%Z.
Proof.
  intros Hall. pose proof (results_partition results) as Hp.
  assert (Hh : highlights_of results = [])
    by (apply length_zero_iff_nil; lia).
  assert (He : errors_of results = [])
    by (apply length_zero_iff_nil; lia).
  repeat split; try assumption.
  unfold status_of.
  rewrite <- errors_exist, <- highlights_exist, Hh, He. reflexivity.
Qed.

End CountFacts.

(* ================================================================== *)
(** * Further properties of the program *)

(** X1.  The scan lists the directory once and makes one project, without
    a label, of every plain file named like a trace, in the order of the
    listing; it fails exactly as the listing fails, and writes nothing. *)
Theorem scan_lists_trace_files (h : Host) (c : Console) :
  scanDirectory h c
  = (c, Promise_.then_ (readdir h (traceDir h))
          (fun entries => map (trace_project h) (filter is_trace_file entries))).
Proof.
  rewrite DiscoverFacts.scanDirectory_eq. f_equal.
  destruct (readdir h (traceDir h)) as [entries |]; cbn; [| reflexivity].
  now rewrite ScanFacts.scan_eq.
Qed.

(** X2.  A directory entry becomes a project exactly when it is a plain
    file whose name is [trace], any characters but line terminators, and
    [.json]; its types file is then looked for under [types] followed by
    the same characters. *)
Theorem trace_file_names (h : Host) (entry : Dirent) :
  (is_trace_file entry = true <->
   dirent_isFile entry = true
   /\ exists stem, name entry = "trace" ++ stem ++ ".json"
                   /\ one_line (stem ++ ".json"))
  /\ (forall stem, name entry = "trace" ++ stem ++ ".json" ->
        typesPath (trace_project h entry)
        = Path.join [traceDir h; ("types" ++ stem ++ ".json")%string]).
Proof.
  split.
  - unfold is_trace_file. split.
    + destruct (dirent_isFile entry); [| discriminate]. cbn [andb].
      destruct (match_trace_name (name entry)) as [suffix |] eqn:E; [| discriminate].
      apply ScanFacts.match_trace_name_spec in E as (Hname & [stem ->] & Hline).
      intros _. split; [reflexivity |]. now exists stem.
    + intros (-> & stem & Hname & Hline). cbn [andb].
      assert (E : match_trace_name (name entry) = Some (stem ++ ".json")).
      { apply ScanFacts.match_trace_name_spec. repeat split; eauto. }
      now rewrite E.
  - intros stem Hname. unfold trace_project, trace_suffix. cbn [typesPath].
    assert (E : Str.strip_prefix "trace" (name entry) = Some (stem ++ ".json"))
      by now apply StrFacts.strip_prefix_spec.
    now rewrite E.
Qed.

(** X3.  When the directory has to be scanned and cannot be listed, the
    run writes nothing to the standard output, reports an internal error
    with the message of the failure after the manifest error, if any, and
    exits with status 2. *)
Theorem unreadable_directory_is_fatal (h : Host) (e : Error) :
  readdir h (traceDir h) = Rejected e ->
  (legend_exists h = false ->
   run h = ({| logged := [];
               errors := ["Internal error: " ++ message e] |}, 2%Z))
  /\ (forall e', legend_exists h = true -> legend_parse h = Rejected e' ->
        run h = ({| logged := [];
                    errors := ["Error reading legend file: " ++ message e';
                               "Internal error: " ++ message e] |}, 2%Z)).
Proof.
  intros Hdir. split.
  - intros Hlegend. unfold run, main, bind.
    rewrite DiscoverFacts.discover_without_legend by assumption.
    rewrite DiscoverFacts.scanDirectory_eq, Hdir. reflexivity.
  - intros e' Hlegend Hparse. unfold run, main, bind.
    rewrite (DiscoverFacts.discover_broken_legend h e') by assumption.
    rewrite DiscoverFacts.scanDirectory_eq, Hdir. reflexivity.
Qed.

Lemma unreadable_directory_is_fatal_witness :
  (legend_exists (MoreSamples.unreadable false) = false ->
   run (MoreSamples.unreadable false)
   = ({| logged := [];
         errors := ["Internal error: " ++ message MoreSamples.eacces] |}, 2%Z))
  /\ (forall e', legend_exists (MoreSamples.unreadable false) = true ->
        legend_parse (MoreSamples.unreadable false) = Rejected e' ->
        run (MoreSamples.unreadable false)
        = ({| logged := [];
              errors := ["Error reading legend file: " ++ message e';
                         "Internal error: " ++ message MoreSamples.eacces] |}, 2%Z)).
Proof.
  apply (unreadable_directory_is_fatal (MoreSamples.unreadable false) MoreSamples.eacces).
  reflexivity.
Defined.

(** X4.  Whatever the host does, the process exits with status 0, 1 or 2. *)
Theorem exit_status_is_0_1_or_2 (h : Host) : is_exit_status (snd (run h)).
Proof.
  unfold run, main, bind.
  destruct (discover h empty_console) as [c [projects | e]].
  - rewrite AnalyzeFacts.analyzeProjects_eq. cbv zeta. cbn [snd].
    apply CountFacts.status_in_range.
  - cbn. unfold is_exit_status. auto.
Qed.

(** X5.  The results split into highlights, errors and the rest; the
    report ends with a line counting the rest, present exactly when there
    is a rest, and saying [other] exactly when an entry was printed. *)
Theorem trailing_line_counts_the_rest (h : Host) (projects : list Project) (c : Console) :
  let results := map (project_result h) projects in
  let highlights := Array_sort (compareHighlights h) (highlights_of results) in
  List.length projects
  = (List.length highlights + List.length (errors_of results)
     + nothing_count results)%nat
  /\ logged (fst (analyzeProjects h projects c))
     = (logged c
        ++ Report.render
             (map (Report.highlight_entry (List.length projects)) highlights
              ++ map Report.error_entry (errors_of results)
              ++ count_line (nothing_count results)
                   (List.length highlights + List.length (errors_of results))))%list.
Proof.
  cbv zeta. split.
  - rewrite Array_sort_length, <- CountFacts.results_partition. now rewrite length_map.
  - pose proof (CountFacts.report_with_count h projects c) as H. cbv zeta in H.
    now rewrite H.
Qed.

(** X6.  When there is at least one project and every analysis finds
    nothing, the run of [analyzeProjects] prints the single line counting
    all projects, without [other], and returns 1. *)
Theorem nothing_found_anywhere (h : Host) (projects : list Project) (c : Console) :
  projects <> [] ->
  Forall (fun p => outcome (project_result h p) = NothingFound) projects ->
  analyzeProjects h projects c
  = (wrote c ["Found nothing in " ++ nat_to_string (List.length projects)
              ++ " project(s)"],
     Resolved 1%Z).
Proof.
  intros Hne Hall.
  set (results := map (project_result h) projects).
  assert (Hcount : nothing_count results = List.length results).
  { unfold nothing_count, results. clear Hne.
    induction Hall as [| p ps Hp _ IH]; cbn [map filter]; [reflexivity |].
    rewrite Hp. cbn [is_nothing List.length]. now rewrite IH. }
  destruct (CountFacts.all_nothing results Hcount) as (Hh & He & Hs).
  pose proof (CountFacts.report_with_count h projects c) as H. cbv zeta in H.
  fold results in H. rewrite H, Hh, He, Hs, Hcount. cbn [Array_sort fold_right map app].
  unfold results. rewrite length_map. unfold count_line.
  destruct projects as [| p ps]; [congruence |]. reflexivity.
Qed.

Lemma nothing_found_anywhere_witness :
  analyzeProjects MoreSamples.quiet_host [Sample.project_b] empty_console
  = (wrote empty_console
           ["Found nothing in " ++ nat_to_string (List.length [Sample.project_b])
            ++ " project(s)"],
     Resolved 1%Z).
Proof.
  apply (nothing_found_anywhere MoreSamples.quiet_host [Sample.project_b] empty_console).
  - discriminate.
  - repeat constructor.
Defined.

(** X7.  The two streams are kept apart: [analyzeProjects] only adds to
    what [console.log] has written and never uses [console.error];
    discovery never uses [console.log] and adds at most one line, the
    manifest error, to what [console.error] has written. *)
Theorem console_streams_kept_apart (h : Host) (c : Console) :
  (forall projects,
      errors (fst (analyzeProjects h projects c)) = errors c
      /\ exists lines, logged (fst (analyzeProjects h projects c))
                       = (logged c ++ lines)%list)
  /\ logged (fst (discover h c)) = logged c
  /\ (errors (fst (discover h c)) = errors c
      \/ exists e, errors (fst (discover h c))
                   = (errors c ++ [("Error reading legend file: " ++ message e)%string])%list).
Proof.
  split; [| split].
  - intros projects. rewrite AnalyzeFacts.analyzeProjects_eq. cbv zeta. cbn [fst].
    split; [reflexivity | eexists; reflexivity].
  - destruct (legend_exists h) eqn:Hl.
    + destruct (legend_parse h) as [entries | e] eqn:Hp.
      * now rewrite (DiscoverFacts.discover_manifest h entries).
      * rewrite (DiscoverFacts.discover_broken_legend h e) by assumption.
        now rewrite DiscoverFacts.scanDirectory_eq.
    + rewrite DiscoverFacts.discover_without_legend by assumption.
      now rewrite DiscoverFacts.scanDirectory_eq.
  - destruct (legend_exists h) eqn:Hl.
    + destruct (legend_parse h) as [entries | e] eqn:Hp.
      * left. now rewrite (DiscoverFacts.discover_manifest h entries).
      * right. exists e.
        rewrite (DiscoverFacts.discover_broken_legend h e) by assumption.
        now rewrite DiscoverFacts.scanDirectory_eq.
    + left. rewrite DiscoverFacts.discover_without_legend by assumption.
      now rewrite DiscoverFacts.scanDirectory_eq.
Qed.

(** X9.  An Error entry is always two lines: the description and one
    line of detail, which is the standard error if there is some, else
    the exit code if it is not zero, else the signal. *)
Theorem error_entry_has_one_detail_line (r : ProjectResult) (first : bool) (c : Console) :
  outcome r = IsError ->
  exists detail,
    logged (fst (printError first r c))
    = (logged c ++ (if first then [] else [""])
       ++ [("Error analyzing " ++ getProjectDescription (project r))%string; detail])%list
    /\ ((stderr r <> "" /\ detail = stderr r)
        \/ (stderr r = ""
            /\ exists code, exitCode r = Some code /\ code <> 0%Z
                            /\ detail = "Exited with code " ++ Z_to_string code)
        \/ (stderr r = "" /\ exitCode_truthy (exitCode r) = false
            /\ exists s, signal r = Some s
                         /\ detail = "Terminated with signal " ++ signal_name s)).
Proof.
  intros Hout. rewrite ClassifyFacts.outcome_eq in Hout.
  rewrite ReportFacts.printError_eq. cbn [fst wrote logged].
  unfold Report.error_entry, Report.error_detail.
  destruct (Str.truthy (stderr r)) eqn:He.
  - exists (stderr r). split; [reflexivity |].
    left. split; [now apply StrFacts.truthy_true | reflexivity].
  - apply StrFacts.truthy_false in He. cbn [orb] in Hout.
    destruct (exitCode r) as [code |] eqn:Hc; cbn [exitCode_truthy] in *.
    + destruct (Z.eqb_spec code 0) as [-> | Hnz]; cbn [negb] in *.
      * destruct (signal r) as [s |]; [| discriminate Hout].
        eexists. split; [reflexivity |]. right. right. eauto.
      * eexists. split; [reflexivity |]. right. left. eauto.
    + destruct (signal r) as [s |]; [| discriminate Hout].
      eexists. split; [reflexivity |]. right. right. eauto.
Qed.

Lemma error_entry_has_one_detail_line_witness :
  exists detail,
    logged (fst (printError true MoreSamples.signalled empty_console))
    = (logged empty_console ++ []
       ++ [("Error analyzing "
            ++ getProjectDescription (project MoreSamples.signalled))%string; detail])%list
    /\ ((stderr MoreSamples.signalled <> "" /\ detail = stderr MoreSamples.signalled)
        \/ (stderr MoreSamples.signalled = ""
            /\ exists code, exitCode MoreSamples.signalled = Some code /\ code <> 0%Z
                            /\ detail = "Exited with code " ++ Z_to_string code)
        \/ (stderr MoreSamples.signalled = ""
            /\ exitCode_truthy (exitCode MoreSamples.signalled) = false
            /\ exists s, signal MoreSamples.signalled = Some s
                         /\ detail = "Terminated with signal " ++ signal_name s)).
Proof.
  apply (error_entry_has_one_detail_line MoreSamples.signalled true empty_console).
  reflexivity.
Defined.

(** X10.  Re-rooting a manifest entry a second time changes nothing,
    when the working directory is absolute and both base names are
    regular: an entry already written with paths in the target directory
    is left as it is. *)
Theorem rerooting_is_idempotent (h : Host) (entry : Project) :
  Path.is_absolute (cwd h) = true ->
  regular_name (Path.basename (tracePath entry)) ->
  regular_name (Path.basename (typesPath entry)) ->
  rerooted h (rerooted h entry) = rerooted h entry.
Proof.
  intros Hcwd Htrace Htypes.
  assert (Hbase : forall name, regular_name (Path.basename name) ->
            Path.basename (Path.resolve (cwd h) [traceDir h; Path.basename name])
            = Path.basename name).
  { intros name Hreg.
    destruct (BaseNameFacts.resolve_name (cwd h) (traceDir h) (Path.basename name)
                Hcwd Hreg (PathFacts.basename_no_sep name)) as [q ->].
    apply BaseNameFacts.basename_app; [apply Hreg | apply PathFacts.basename_no_sep | eauto]. }
  unfold rerooted. cbn [tracePath typesPath configFilePath].
  now rewrite !Hbase.
Qed.

Lemma rerooting_is_idempotent_witness :
  rerooted Sample.traversal_host (rerooted Sample.traversal_host MoreSamples.foreign_entry)
  = rerooted Sample.traversal_host MoreSamples.foreign_entry.
Proof.
  apply (rerooting_is_idempotent Sample.traversal_host MoreSamples.foreign_entry).
  - reflexivity.
  - repeat split; intros H; vm_compute in H; discriminate H.
  - repeat split; intros H; vm_compute in H; discriminate H.
Defined.

(** X11.  A project found by the scan is described by the name of its
    trace file, as the directory lists it. *)
Theorem scanned_project_description (h : Host) (entry : Dirent) :
  is_trace_file entry = true ->
  Path.no_sep (name entry) ->
  getProjectDescription (trace_project h entry) = name entry.
Proof.
  intros Htrace Hns.
  assert (Hreg : regular_name (name entry)).
  { unfold is_trace_file in Htrace.
    destruct (dirent_isFile entry); [| discriminate].
    destruct (match_trace_name (name entry)) as [suffix |] eqn:E; [| discriminate].
    apply ScanFacts.match_trace_name_spec in E as (-> & _ & _).
    repeat split; discriminate. }
  unfold getProjectDescription, trace_project. cbn [configFilePath tracePath].
  destruct (BaseNameFacts.join_name (traceDir h) (name entry) Hreg Hns)
    as (pre & -> & Hpre).
  apply BaseNameFacts.basename_app; [apply Hreg | assumption | assumption].
Qed.

Lemma scanned_project_description_witness :
  getProjectDescription (trace_project Sample.scenario_host (Sample.file "trace-b.json"))
  = name (Sample.file "trace-b.json").
Proof.
  apply (scanned_project_description Sample.scenario_host (Sample.file "trace-b.json"));
    reflexivity.
Defined.

(** X12.  In a directory without manifest whose only trace gives a
    highlight, the run prints the analyzer's output and nothing else, with
    no description line, and exits with status 0. *)
Theorem single_trace_prints_raw_output (h : Host) (entries : list Dirent)
        (entry : Dirent) (s : JS.number) :
  legend_exists h = false ->
  readdir h (traceDir h) = Resolved entries ->
  filter is_trace_file entries = [entry] ->
  outcome (project_result h (trace_project h entry)) = IsHighlight s ->
  run h = ({| logged := [stdout (project_result h (trace_project h entry))];
              errors := [] |}, 0%Z).
Proof.
  intros Hlegend Hdir Hone Hout. unfold run, main, bind.
  rewrite DiscoverFacts.discover_without_legend by assumption.
  rewrite DiscoverFacts.scanDirectory_eq, Hdir. cbn [Promise_.then_].
  rewrite ScanFacts.scan_eq, Hone. cbn [map app].
  rewrite AnalyzeFacts.analyzeProjects_eq. cbv zeta. cbn [map].
  unfold highlights_of, errors_of, status_of. cbn [flat_map filter map existsb].
  rewrite Hout. reflexivity.
Qed.

Lemma single_trace_prints_raw_output_witness :
  run MoreSamples.single_trace_host
  = ({| logged := [stdout (project_result MoreSamples.single_trace_host
                             (trace_project MoreSamples.single_trace_host
                                (Sample.file "trace-a.json")))];
        errors := [] |}, 0%Z).
Proof.
  apply (single_trace_prints_raw_output MoreSamples.single_trace_host
           [Sample.file "notes.txt"; Sample.file "trace-a.json"]
           (Sample.file "trace-a.json") (JS.Fin 120));
    reflexivity.
Defined.

(** X13.  What the score is read from is never empty and holds decimal
    digits only, and every score is a non-negative integer or the positive
    infinity: no highlight has NaN for a score. *)
Theorem scores_are_numbers :
  (forall s digits, match_marker s = Some digits ->
                    digits <> "" /\ Str.forallb JS.is_digit digits = true)
  /\ (forall results, Forall scored (highlights_of results)).
Proof.
  split.
  - intros s digits Hm.
    apply MarkerFacts.match_marker_first, MarkerFacts.FirstMarker_occurs in Hm
      as (pre & post & _ & sp & rest & _ & Hne & Hd & _).
    now split.
  - apply ClassifyFacts.highlights_scored.
Qed.

(** X14.  With a manifest that parses, the directory is never listed:
    the run is the same whatever [readdir] would do. *)
Theorem manifest_run_ignores_directory (h : Host) (entries : list Project)
        (rd : string -> Promise (list Dirent)) :
  legend_exists h = true ->
  legend_parse h = Resolved entries ->
  run (with_readdir h rd) = run h
  /\ main h empty_console
     = analyzeProjects h (map (rerooted h) entries) empty_console.
Proof.
  intros Hlegend Hparse.
  assert (Hmain : forall h', legend_exists h' = true ->
            legend_parse h' = Resolved entries ->
            main h' empty_console
            = analyzeProjects h' (map (rerooted h') entries) empty_console).
  { intros h' Hl Hp. unfold main, bind.
    now rewrite (DiscoverFacts.discover_manifest h' entries). }
  split; [| now apply Hmain].
  unfold run. rewrite (Hmain h Hlegend Hparse), (Hmain (with_readdir h rd) Hlegend Hparse).
  rewrite !AnalyzeFacts.analyzeProjects_eq. reflexivity.
Qed.

Lemma manifest_run_ignores_directory_witness :
  run (with_readdir Sample.traversal_host (fun _ => Rejected MoreSamples.eacces))
  = run Sample.traversal_host
  /\ main Sample.traversal_host empty_console
     = analyzeProjects Sample.traversal_host
         (map (rerooted Sample.traversal_host) Sample.traversal_manifest) empty_console.
Proof.
  apply (manifest_run_ignores_directory Sample.traversal_host Sample.traversal_manifest
           (fun _ => Rejected MoreSamples.eacces)); reflexivity.
Defined.

(* ================================================================== *)
(** * The manifest without its declared type *)

Module RawLegendFacts.
Import ExecFacts DiscoverFacts ScanFacts.

Lemma rerootEntry_typed (h : Host) (p : Project) :
  rerootEntry h (entry_of_project p) = (entry_of_project (rerooted h p), None).
Proof. reflexivity. Qed.

Lemma rerootLoop_typed (h : Host) (ps : list Project) :
  rerootLoop h (map entry_of_project ps)
  = (map entry_of_project (map (rerooted h) ps), None).
Proof.
  induction ps as [| p ps IH]; cbn [map rerootLoop]; [reflexivity |].
  now rewrite rerootEntry_typed, IH.
Qed.




Lemma scan_step (h : Host) (c : Console) :
  (scanned <- scanDirectory h ;; ret (FromScan scanned)) c
  = (c, Promise_.then_ (readdir h (traceDir h)) (scan_of h)).
Proof.
  unfold bind, ret, scan_of. rewrite scanDirectory_eq.
  destruct (readdir h (traceDir h)) as [entries |]; cbn; [| reflexivity].
  now rewrite scan_eq.
Qed.

Lemma discoverRaw_without_legend (h : Host) (parse : string -> Promise LegendValue)
      (c : Console) :
  legend_exists h = false ->
  discoverRaw h parse c = (c, Promise_.then_ (readdir h (traceDir h)) (scan_of h)).
Proof.
  unfold legend_exists, discoverRaw, bind at 1, await. fold (legendPath h).
  rewrite isFile_eq. intros ->. unfold bind at 1, ret. apply scan_step.
Qed.

(** When reading the file or [JSON.parse] throws, [projects] stays
    undefined and discovery is the scan. *)
Lemma discoverRaw_unreadable (h : Host) (parse : string -> Promise LegendValue)
      (e : Error) (c : Console) :
  legend_exists h = true ->
  Promise_.bind (readFile h (legendPath h)) parse = Rejected e ->
  discoverRaw h parse c
  = (complained c ("Error reading legend file: " ++ message e),
     Promise_.then_ (readdir h (traceDir h)) (scan_of h)).
Proof.
  unfold legend_exists, discoverRaw, bind at 1, await. fold (legendPath h).
  rewrite isFile_eq. intros -> Hp.
  unfold bind at 1, readLegendRaw, try_catch, bind at 1, await.
  destruct (readFile h (legendPath h)) as [text |] eqn:Hr; cbn [Promise_.bind] in Hp.
  - unfold bind at 1. rewrite Hp. cbn. apply scan_step.
  - injection Hp as ->. cbn. apply scan_step.
Qed.

(** When the file is read and parsed, [projects] is the parsed value as
    the loop leaves it, what the loop throws is reported, and the scan
    runs only if that value is falsy. *)
Lemma discoverRaw_parsed (h : Host) (parse : string -> Promise LegendValue)
      (text : string) (value : LegendValue) (c : Console) :
  legend_exists h = true ->
  readFile h (legendPath h) = Resolved text ->
  parse text = Resolved value ->
  discoverRaw h parse c
  = let (value', thrown) := forOfLegend h value in
    let c' := match thrown with
              | Some e => complained c ("Error reading legend file: " ++ message e)
              | None => c
              end in
    if legend_truthy value' then (c', Resolved (FromLegend value'))
    else (c', Promise_.then_ (readdir h (traceDir h)) (scan_of h)).
Proof.
  unfold legend_exists, discoverRaw, bind at 1, await. fold (legendPath h).
  rewrite isFile_eq. intros -> Hr Hp.
  unfold bind at 1, readLegendRaw, try_catch, bind at 1, await. rewrite Hr.
  unfold bind at 1. rewrite Hp.
  destruct (forOfLegend h value) as [value' [e |]]; cbn.
  - destruct (legend_truthy value'); [reflexivity | apply scan_step].
  - destruct (legend_truthy value'); [reflexivity | apply scan_step].
Qed.

(** On manifests of the declared type the two readings of discovery
    agree. *)
Lemma discoverRaw_typed (h : Host) (c : Console) :
  discoverRaw h (parseTyped h) c
  = (fst (discover h c),
     Promise_.then_ (snd (discover h c))
       (fun ps => if manifest_used h
                  then FromLegend (LegendArray (map entry_of_project ps))
                  else FromScan ps)).
Proof.
  unfold manifest_used. destruct (legend_exists h) eqn:Hl; cbn [andb].
  - unfold legend_parse.
    destruct (readFile h (legendPath h)) as [text |] eqn:Hr; cbn [Promise_.bind].
    + destruct (JSON_parse h text) as [ps |] eqn:Hj.
      * rewrite (discoverRaw_parsed h (parseTyped h) text
                   (LegendArray (map entry_of_project ps)))
          by (try assumption; unfold parseTyped; now rewrite Hj).
        cbn [forOfLegend]. rewrite rerootLoop_typed. cbn [legend_truthy].
        rewrite (discover_manifest h ps)
          by (try assumption; unfold legend_parse; now rewrite Hr).
        reflexivity.
      * rewrite (discoverRaw_unreadable h (parseTyped h) e)
          by (try assumption; rewrite Hr; unfold parseTyped; cbn; now rewrite Hj).
        rewrite (discover_broken_legend h e)
          by (try assumption; unfold legend_parse; now rewrite Hr).
        rewrite scanDirectory_eq. cbn [fst snd]. f_equal.
        destruct (readdir h (traceDir h)) as [entries |]; cbn; [| reflexivity].
        unfold scan_of. now rewrite scan_eq.
    + rewrite (discoverRaw_unreadable h (parseTyped h) e)
        by (try assumption; now rewrite Hr).
      rewrite (discover_broken_legend h e)
        by (try assumption; unfold legend_parse; now rewrite Hr).
      rewrite scanDirectory_eq. cbn [fst snd]. f_equal.
      destruct (readdir h (traceDir h)) as [entries |]; cbn; [| reflexivity].
      unfold scan_of. now rewrite scan_eq.
  - rewrite discoverRaw_without_legend, discover_without_legend by assumption.
    rewrite scanDirectory_eq. cbn [fst snd]. f_equal.
    destruct (readdir h (traceDir h)) as [entries |]; cbn; [| reflexivity].
    unfold scan_of. now rewrite scan_eq.
Qed.

End RawLegendFacts.



(** In one and the same directory, a manifest that is not JSON gives the
    project of the scan, and a manifest with a faulty entry gives that
    entry: the same error line in front, the scan only behind the first. *)
Example two_failures_of_one_manifest :
  discoverRaw RevSamples.manifest_host RevSamples.parse_broken empty_console
  = (complained empty_console
       "Error reading legend file: Unexpected token } in JSON at position 1",
     Resolved (FromScan [Sample.scanned_project "-a.json"]))
  /\ discoverRaw RevSamples.manifest_host RevSamples.parse_malformed empty_console
     = (complained empty_console
          ("Error reading legend file: " ++ message RevSamples.not_a_string),
        Resolved (FromLegend (LegendArray [RevSamples.entry_without_trace]))).
Proof. split; reflexivity. Qed.

(** X15.  When the manifest is a file and reading it or [JSON.parse]
    throws, the error is reported with [console.error], [projects] stays
    undefined and discovery is the scan: one project for every plain file
    named like a trace, in the order of the listing, or the failure of
    the listing. *)
Theorem unreadable_manifest_falls_back_to_scan
        (h : Host) (parse : string -> Promise LegendValue) (e : Error) (c : Console) :
  legend_exists h = true ->
  Promise_.bind (readFile h (legendPath h)) parse = Rejected e ->
  discoverRaw h parse c
  = (complained c ("Error reading legend file: " ++ message e),
     Promise_.then_ (readdir h (traceDir h))
       (fun entries => FromScan (map (trace_project h) (filter is_trace_file entries)))).
Proof.
  intros Hlegend Hparse. now apply RawLegendFacts.discoverRaw_unreadable.
Qed.

Lemma unreadable_manifest_falls_back_to_scan_witness :
  discoverRaw RevSamples.manifest_host RevSamples.parse_broken empty_console
  = (complained empty_console
       ("Error reading legend file: " ++ message RevSamples.syntax_error),
     Promise_.then_ (readdir RevSamples.manifest_host (traceDir RevSamples.manifest_host))
       (fun entries =>
          FromScan (map (trace_project RevSamples.manifest_host)
                        (filter is_trace_file entries)))).
Proof.
  apply (unreadable_manifest_falls_back_to_scan RevSamples.manifest_host
           RevSamples.parse_broken RevSamples.syntax_error empty_console);
    reflexivity.
Defined.
